(** * distracted: URL/rule matching and the unlock ledger

    A shallow embedding of
      - [src/lib/storage.ts]            (pattern matcher, rule evaluator),
      - [src/entrypoints/background/blockers/webRequest.ts]
                                        (synchronous backend, unlock ledger),
      - [src/entrypoints/background/utils.ts]   ([isInternalUrl]),
      - [src/entrypoints/background/index.ts]   ([checkAndBlockUrl]),
    followed by the properties of the design document that concern them.

    Conventions.
      - A JS string is a [string]: a sequence of 8-bit code units, read as the
        Latin-1 range of UTF-16.  Host names and paths produced by the [URL]
        constructor are ASCII, so nothing is lost on the URL side.
      - Timestamps and durations ([Date.now()], [expiresAt], minutes) are [Z].
      - [new URL(url)] is a platform primitive: it is a parameter
        [parseURL : string -> option URL], [None] standing for the thrown
        [TypeError].
      - [Map<string, UnlockState>] is a [gmap string UnlockState].
      - An [async] function is run to completion; the value of [Date.now()]
        it reads and the answer of [browser.tabs.query] are arguments. *)

From Stdlib Require Import ZArith Ascii.
From stdpp Require Import base option list strings gmap.

Local Open Scope Z_scope.

(** ** JavaScript string primitives *)

Module Js.

Definition code (c : ascii) : N := N_of_ascii c.

(** [String.prototype.toLowerCase] on one code unit: A-Z, and in the Latin-1
    block U+00C0-U+00DE without the multiplication sign U+00D7. *)
Definition lowerChar (c : ascii) : ascii :=
  let n := code c in
  if ((65 <=? n) && (n <=? 90))%N then ascii_of_N (n + 32)
  else if ((192 <=? n) && (n <=? 222) && negb (n =? 215))%N
       then ascii_of_N (n + 32)
  else c.

(** The [Canonicalize] operation of a RegExp with the [i] flag and without
    the [u] flag: the upper-case form when it is a single code unit of the
    same range (a-z, U+00E0-U+00FE without the division sign U+00F7). *)
Definition canonChar (c : ascii) : ascii :=
  let n := code c in
  if ((97 <=? n) && (n <=? 122))%N then ascii_of_N (n - 32)
  else if ((224 <=? n) && (n <=? 254) && negb (n =? 247))%N
       then ascii_of_N (n - 32)
  else c.

(** WhiteSpace and LineTerminator code units, as removed by [trim]. *)
Definition isTrimmable (c : ascii) : bool :=
  let n := code c in
  ((n =? 9) || (n =? 10) || (n =? 11) || (n =? 12) || (n =? 13)
   || (n =? 32) || (n =? 160))%N.

(** LineTerminator code units, which [.] does not match. *)
Definition isLineTerminator (c : ascii) : bool :=
  let n := code c in ((n =? 10) || (n =? 13))%N.

Fixpoint toLowerCase (s : string) : string :=
  match s with
  | EmptyString => EmptyString
  | String c r => String (lowerChar c) (toLowerCase r)
  end.

Fixpoint trimStart (s : string) : string :=
  match s with
  | EmptyString => EmptyString
  | String c r => if isTrimmable c then trimStart r else s
  end.

Fixpoint trimEnd (s : string) : string :=
  match s with
  | EmptyString => EmptyString
  | String c r =>
      match trimEnd r with
      | EmptyString => if isTrimmable c then EmptyString
                       else String c EmptyString
      | r' => String c r'
      end
  end.

Definition trim (s : string) : string := trimEnd (trimStart s).

(** [s.startsWith(p)] *)
Fixpoint startsWith (s p : string) {struct p} : bool :=
  match p, s with
  | EmptyString, _ => true
  | String _ _, EmptyString => false
  | String a p', String b s' => Ascii.eqb a b && startsWith s' p'
  end.

(** [s.endsWith(p)] *)
Fixpoint endsWith (s p : string) : bool :=
  String.eqb s p ||
  match s with
  | EmptyString => false
  | String _ s' => endsWith s' p
  end.

(** [s.includes(c)] for a one-character needle. *)
Fixpoint includes (s : string) (c : ascii) : bool :=
  match s with
  | EmptyString => false
  | String a r => Ascii.eqb a c || includes r c
  end.

(** [s.indexOf(c)] for a one-character needle; [None] is JS's [-1]. *)
Fixpoint indexOf (s : string) (c : ascii) : option nat :=
  match s with
  | EmptyString => None
  | String a r => if Ascii.eqb a c then Some O else S <$> indexOf r c
  end.

(** [s.slice(0, n)] and [s.slice(n)] for an index [0 <= n]. *)
Fixpoint sliceTo (n : nat) (s : string) : string :=
  match n, s with
  | S n', String c r => String c (sliceTo n' r)
  | _, _ => EmptyString
  end.

Fixpoint sliceFrom (n : nat) (s : string) : string :=
  match n, s with
  | S n', String _ r => sliceFrom n' r
  | _, _ => s
  end.

(** [s.replace(/^https?:\/\//, empty)] *)
Definition stripScheme (s : string) : string :=
  if startsWith s "https://" then sliceFrom 8 s
  else if startsWith s "http://" then sliceFrom 7 s
  else s.

(** [s.replace(/^www\./, empty)] *)
Definition stripWww (s : string) : string :=
  if startsWith s "www." then sliceFrom 4 s else s.

(** [s.replace(/\/$/, empty)]: without the [m] flag [$] is the end of input. *)
Fixpoint stripTrailingSlash (s : string) : string :=
  match s with
  | EmptyString => EmptyString
  | String c EmptyString => if Ascii.eqb c "/" then EmptyString else s
  | String c r => String c (stripTrailingSlash r)
  end.

(** *** The regular expressions built from a pattern

    The source escapes every regex metacharacter of the pattern except the
    star, then turns each star into dot-star.  What is left has two kinds of
    atoms: a character that stands for itself, and dot-star. *)
Inductive atom : Type :=
  | Lit (c : ascii)
  | AnyStar.

Fixpoint compile (p : string) : list atom :=
  match p with
  | EmptyString => []
  | String c r => (if Ascii.eqb c "*" then AnyStar else Lit c) :: compile r
  end.

(** [new RegExp("^" + re + "$", "i").test(s)] *)
Fixpoint regexTest (re : list atom) (s : string) : bool :=
  match re with
  | [] => match s with EmptyString => true | _ => false end
  | Lit c :: re' =>
      match s with
      | EmptyString => false
      | String d s' => Ascii.eqb (canonChar c) (canonChar d) && regexTest re' s'
      end
  | AnyStar :: re' =>
      (fix star (t : string) : bool :=
         regexTest re' t ||
         match t with
         | EmptyString => false
         | String d t' => if isLineTerminator d then false else star t'
         end) s
  end.

End Js.

(** Lower-case strings: the fixed points of [toLowerCase]. *)
Fixpoint isLower (s : string) : Prop :=
  match s with
  | EmptyString => True
  | String c r => Js.lowerChar c = c /\ isLower r
  end.

(** ** Data model *)

(** The parts of a [URL] object.  The matcher reads [hostname] and
    [pathname] only. *)
Record URL : Type := mkURL {
  protocol : string;
  username : string;
  password : string;
  hostname : string;
  port : string;
  pathname : string;
  search : string;
  hash : string
}.

Record PatternRule : Type := mkRule {
  pattern : string;
  allow : bool
}.

(** The types of [unlockMethod] and [challengeSettings] are declared in the
    challenge components, outside the core, which never reads the two
    fields: the method is kept as its name and the settings as a payload
    of type [C]. *)
Record BlockedSite (C : Type) : Type := mkSite {
  id : string;
  name : string;
  rules : list PatternRule;
  unlockMethod : string;
  challengeSettings : C;
  autoRelockAfter : option Z;
  enabled : bool;
  createdAt : Z
}.

Arguments mkSite {C} _ _ _ _ _ _ _ _.
Arguments id {C} _.
Arguments name {C} _.
Arguments rules {C} _.
Arguments unlockMethod {C} _.
Arguments challengeSettings {C} _.
Arguments autoRelockAfter {C} _.
Arguments enabled {C} _.
Arguments createdAt {C} _.

Record UnlockState : Type := mkUnlock {
  siteId : string;
  expiresAt : Z
}.

(** A tab as [browser.tabs.query] reports it: [id] and [url] are optional. *)
Record Tab : Type := mkTab {
  tab_id : option Z;
  tab_url : option string
}.

(** ** Pattern matcher and rule evaluator ([src/lib/storage.ts]) *)

Section Matcher.

Variable parseURL : string -> option URL.

(** The normalisation of the pattern, lines 99-103. *)
Definition normalizePattern (pattern : string) : string :=
  Js.stripWww (Js.stripScheme (Js.trim (Js.toLowerCase pattern))).

(** The value given to [hostMatches] by lines 113-131, as a function of the
    host pattern and of the two forms of the host. *)
Definition hostMatches (hostPattern normalizedHost hostname : string) : bool :=
  if Js.startsWith hostPattern "*." then
    let domain := Js.sliceFrom 2 hostPattern in
    String.eqb normalizedHost domain
    || Js.endsWith normalizedHost ("." +:+ domain)
  else if Js.includes hostPattern "*" then
    let regex := Js.compile hostPattern in
    Js.regexTest regex normalizedHost
    || Js.regexTest regex (Js.toLowerCase hostname)
  else
    String.eqb normalizedHost hostPattern
    || String.eqb (Js.toLowerCase hostname) hostPattern
    || String.eqb (Js.toLowerCase hostname) ("www." +:+ hostPattern).

(** The body of the [try] block; [None] is a thrown exception. *)
Definition urlMatchesPattern_try (url pattern : string) : option bool :=
  urlObj ← parseURL url;
  let hostname := Js.toLowerCase (hostname urlObj) in
  let pathname := Js.toLowerCase (pathname urlObj) in
  let normalizedPattern := normalizePattern pattern in
  if Js.includes normalizedPattern "/" then
    let slashIndex := default O (Js.indexOf normalizedPattern "/") in
    let hostPattern := Js.sliceTo slashIndex normalizedPattern in
    let pathPattern := Js.sliceFrom slashIndex normalizedPattern in
    let normalizedPath := Js.toLowerCase pathname in
    let normalizedPathPattern := Js.toLowerCase pathPattern in
    let normalizedHost := Js.stripWww (Js.toLowerCase hostname) in
    if negb (hostMatches hostPattern normalizedHost hostname) then Some false
    else if Js.includes normalizedPathPattern "*" then
      let regex := Js.compile normalizedPathPattern in
      Some (Js.regexTest regex normalizedPath)
    else
      let cleanPattern := Js.stripTrailingSlash normalizedPathPattern in
      let cleanPath := Js.stripTrailingSlash normalizedPath in
      Some (String.eqb cleanPath cleanPattern
            || Js.startsWith cleanPath (cleanPattern +:+ "/"))
  else
    let normalizedHost := Js.stripWww (Js.toLowerCase hostname) in
    if Js.startsWith normalizedPattern "*." then
      let domain := Js.sliceFrom 2 normalizedPattern in
      Some (String.eqb normalizedHost domain
            || Js.endsWith normalizedHost ("." +:+ domain))
    else if Js.includes normalizedPattern "*" then
      let regex := Js.compile normalizedPattern in
      Some (Js.regexTest regex normalizedHost
            || Js.regexTest regex (Js.toLowerCase hostname))
    else
      Some (String.eqb normalizedHost normalizedPattern
            || String.eqb (Js.toLowerCase hostname) normalizedPattern
            || String.eqb (Js.toLowerCase hostname)
                          ("www." +:+ normalizedPattern)).

(** [try { ... } catch { return false; }] *)
Definition urlMatchesPattern (url pattern : string) : bool :=
  match urlMatchesPattern_try url pattern with
  | Some b => b
  | None => false
  end.

(** The [for] loop of [urlMatchesSiteRules], with its running flag; the
    early [return false] ends the scan. *)
Fixpoint scanRules (url : string) (rs : list PatternRule) (isBlocked : bool)
  : bool :=
  match rs with
  | [] => isBlocked
  | rule :: rest =>
      if urlMatchesPattern url (pattern rule) then
        if allow rule then false
        else scanRules url rest true
      else scanRules url rest isBlocked
  end.

Definition urlMatchesSiteRules {C} (url : string) (site : BlockedSite C)
  : bool :=
  if negb (enabled site) then false
  else scanRules url (rules site) false.

(** [getBlockedSites]: the stored list, or the empty list when the key is
    absent. *)
Definition getBlockedSites {C} (stored : option (list (BlockedSite C)))
  : list (BlockedSite C) :=
  default [] stored.

(** [sites.find(...) || null] *)
Definition findMatchingBlockedSite {C} (stored : option (list (BlockedSite C)))
  (url : string) : option (BlockedSite C) :=
  let sites := getBlockedSites stored in
  List.find (fun site => urlMatchesSiteRules url site) sites.

End Matcher.

(** The two parts of a pattern with a slash, lines 106-108: the host part
    before the first slash of the normalised pattern, the path part from
    that slash on. *)
Definition hostPart (pattern : string) : string :=
  let np := normalizePattern pattern in
  Js.sliceTo (default O (Js.indexOf np "/")) np.

Definition pathPart (pattern : string) : string :=
  let np := normalizePattern pattern in
  Js.sliceFrom (default O (Js.indexOf np "/")) np.

(** ** Internal URLs ([src/entrypoints/background/utils.ts]) *)

Section Internal.

(** The results of [getExtensionScheme()] and [getBrowserScheme()]: they are
    read from build-time tables and the environment, outside the core. *)
Variables extensionScheme browserScheme : string.

Definition isInternalUrl (url : string) : bool :=
  if String.eqb url "" then false
  else if Js.startsWith url extensionScheme then true
  else if Js.startsWith url browserScheme then true
  else if Js.startsWith url "about:" then true
  else false.

End Internal.

(** ** The synchronous backend and its unlock ledger
       ([src/entrypoints/background/blockers/webRequest.ts]) *)

(** The module state: the two module-level variables, and the platform's
    alarm table ([browser.alarms]), where creating an alarm under a name
    replaces the alarm of that name. *)
Record Backend (C : Type) : Type := mkBackend {
  cachedSites : list (BlockedSite C);
  unlockedSites : gmap string UnlockState;
  alarms : gmap string Z
}.

Arguments mkBackend {C} _ _ _.
Arguments cachedSites {C} _.
Arguments unlockedSites {C} _.
Arguments alarms {C} _.

(** The result of [shouldBlockUrl]. *)
Record Verdict (C : Type) : Type := mkVerdict {
  blocked : bool;
  site : option (BlockedSite C)
}.

Arguments mkVerdict {C} _ _.
Arguments blocked {C} _.
Arguments site {C} _.

Section WebRequest.

Context {C : Type}.
Variable parseURL : string -> option URL.
Variables extensionScheme browserScheme : string.

(** [ALARM_PREFIX] of [@/lib/consts]: the fixed prefix of a deadline tag. *)
Variable ALARM_PREFIX : string.

Definition refreshCache (stored : option (list (BlockedSite C)))
  (st : Backend C) : Backend C :=
  mkBackend (getBlockedSites stored) (unlockedSites st) (alarms st).

(** The [for] loop of [shouldBlockUrl] over the cached sites. *)
Fixpoint shouldBlockUrl_loop (now : Z) (unlocked : gmap string UnlockState)
  (url : string) (sites : list (BlockedSite C)) : Verdict C :=
  match sites with
  | [] => mkVerdict false None
  | site :: rest =>
      if negb (enabled site) then shouldBlockUrl_loop now unlocked url rest
      else
        let unlockState := unlocked !! id site in
        if match unlockState with
           | Some s => expiresAt s >? now
           | None => false
           end
        then shouldBlockUrl_loop now unlocked url rest
        else
          let matches := urlMatchesSiteRules parseURL url site in
          if matches then mkVerdict true (Some site)
          else shouldBlockUrl_loop now unlocked url rest
  end.

Definition shouldBlockUrl (now : Z) (st : Backend C) (url : string)
  : Verdict C :=
  shouldBlockUrl_loop now (unlockedSites st) url (cachedSites st).

Definition grantAccess (now : Z) (siteId : string)
  (durationMinutes : option Z) (st : Backend C) : Z * Backend C :=
  let durationMs := default 60 durationMinutes * 60 * 1000 in
  let expiresAt := now + durationMs in
  (expiresAt,
   mkBackend (cachedSites st)
             (<[siteId := mkUnlock siteId expiresAt]> (unlockedSites st))
             (<[ALARM_PREFIX +:+ siteId := expiresAt]> (alarms st))).

(** The loop of [findTabsOnBlockedSite] over the open tabs. *)
Fixpoint matchingTabs (site : BlockedSite C) (tabs : list Tab) : list Z :=
  match tabs with
  | [] => []
  | tab :: rest =>
      match tab_id tab, tab_url tab with
      | Some i, Some u =>
          if (i =? 0) || String.eqb u "" then matchingTabs site rest
          else if isInternalUrl extensionScheme browserScheme u
               then matchingTabs site rest
          else if urlMatchesSiteRules parseURL u site
               then i :: matchingTabs site rest
          else matchingTabs site rest
      | _, _ => matchingTabs site rest
      end
  end.

Definition findTabsOnBlockedSite (tabs : list Tab) (siteId : string)
  (st : Backend C) : list Z :=
  match List.find (fun s => String.eqb (id s) siteId) (cachedSites st) with
  | None => []
  | Some site => matchingTabs site tabs
  end.

Definition revokeAccess (tabs : list Tab) (siteId : string) (st : Backend C)
  : list Z * Backend C :=
  let st' := mkBackend (cachedSites st)
                       (delete siteId (unlockedSites st))
                       (delete (ALARM_PREFIX +:+ siteId) (alarms st)) in
  let tabsToRedirect := findTabsOnBlockedSite tabs siteId st' in
  (tabsToRedirect, st').

Definition isSiteUnlocked (now : Z) (siteId : string) (st : Backend C)
  : bool * Backend C :=
  match unlockedSites st !! siteId with
  | None => (false, st)
  | Some state =>
      if expiresAt state <=? now then
        (false, mkBackend (cachedSites st)
                          (delete siteId (unlockedSites st)) (alarms st))
      else (true, st)
  end.

Definition getUnlockState (now : Z) (siteId : string) (st : Backend C)
  : option UnlockState * Backend C :=
  match unlockedSites st !! siteId with
  | None => (None, st)
  | Some state =>
      if expiresAt state <=? now then
        (None, mkBackend (cachedSites st)
                         (delete siteId (unlockedSites st)) (alarms st))
      else (Some state, st)
  end.

Definition handleRelockAlarm (tabs : list Tab) (alarmName : string)
  (st : Backend C) : option (string * list Z) * Backend C :=
  if negb (Js.startsWith alarmName ALARM_PREFIX) then (None, st)
  else
    let siteId := Js.sliceFrom (String.length ALARM_PREFIX) alarmName in
    let '(tabsToRedirect, st') := revokeAccess tabs siteId st in
    (Some (siteId, tabsToRedirect), st').

(** ** The navigation check of [src/entrypoints/background/index.ts]

    [checkAndBlockUrl] on the build that runs this backend: the site whose
    blocked page the tab is sent to, if any, and the ledger afterwards. *)
Definition checkAndBlockUrl (now : Z) (stored : option (list (BlockedSite C)))
  (url : string) (st : Backend C) : option (BlockedSite C) * Backend C :=
  if isInternalUrl extensionScheme browserScheme url then (None, st)
  else
    match findMatchingBlockedSite parseURL stored url with
    | None => (None, st)
    | Some site =>
        let '(unlocked, st') := isSiteUnlocked now (id site) st in
        if unlocked then (None, st') else (Some site, st')
    end.

End WebRequest.

(** ** The decision of the navigation pipeline

    The live-grant test, and the decision that the design document gives
    for a navigation: the first matching site, then the ledger's answer
    for that site. *)
Definition liveGrant (now : Z) (ledger : gmap string UnlockState)
  (siteId : string) : bool :=
  match ledger !! siteId with
  | Some s => expiresAt s >? now
  | None => false
  end.

(** The test that the loop of [shouldBlockUrl] applies to each site: the
    site matches and holds no live grant. *)
Definition blocksNow {C} (parseURL : string -> option URL) (now : Z)
  (ledger : gmap string UnlockState) (url : string) (s : BlockedSite C)
  : bool :=
  urlMatchesSiteRules parseURL url s && negb (liveGrant now ledger (id s)).

Definition pipelineBlocks {C} (parseURL : string -> option URL) (now : Z)
  (stored : option (list (BlockedSite C))) (st : Backend C) (url : string)
  : bool :=
  match findMatchingBlockedSite parseURL stored url with
  | None => false
  | Some s => negb (fst (isSiteUnlocked now (id s) st))
  end.

(** ** A URL reader for the closed examples

    The theorems below hold for every [parseURL].  Closed examples need one:
    [parseSimpleURL] reads the plain form
    [http(s)://[user[:password]@]host[:port][/path][?query][#fragment]]
    the way the [URL] constructor does (lower-cased host, path [/] when
    absent) and rejects everything else. *)

Fixpoint splitAtFirst (stop : ascii -> bool) (s : string) : string * string :=
  match s with
  | EmptyString => (EmptyString, EmptyString)
  | String c r =>
      if stop c then (EmptyString, s)
      else let '(a, b) := splitAtFirst stop r in (String c a, b)
  end.

Definition parseSimpleURL (s : string) : option URL :=
  let scheme :=
    if Js.startsWith s "https://" then Some ("https:", Js.sliceFrom 8 s)
    else if Js.startsWith s "http://" then Some ("http:", Js.sliceFrom 7 s)
    else None in
  '(proto, rest) ← scheme;
  let '(authority, rest1) :=
    splitAtFirst (fun c => Ascii.eqb c "/" || Ascii.eqb c "?"
                           || Ascii.eqb c "#") rest in
  let '(userinfo, hostport) :=
    if Js.includes authority "@" then
      let '(u, h) := splitAtFirst (fun c => Ascii.eqb c "@") authority in
      (u, Js.sliceFrom 1 h)
    else (EmptyString, authority) in
  let '(user, pw) := splitAtFirst (fun c => Ascii.eqb c ":") userinfo in
  let '(host, portpart) := splitAtFirst (fun c => Ascii.eqb c ":") hostport in
  if String.eqb host "" then None
  else
    let '(path, rest2) :=
      splitAtFirst (fun c => Ascii.eqb c "?" || Ascii.eqb c "#") rest1 in
    let '(query, frag) := splitAtFirst (fun c => Ascii.eqb c "#") rest2 in
    Some (mkURL proto user (Js.sliceFrom 1 pw) (Js.toLowerCase host)
                (Js.sliceFrom 1 portpart)
                (if String.eqb path "" then "/" else path)
                query frag).

(** ** Data of the closed examples

    Two rule sets aimed at the same host, one open tab, and sample values
    for the three constants the core imports. *)
Definition redditSite : BlockedSite unit :=
  mkSite "s1" "Reddit" [mkRule "reddit.com" false] "timer" tt (Some 60)
         true 0.

Definition redditWildcardSite : BlockedSite unit :=
  mkSite "s2" "Reddit and subdomains" [mkRule "*.reddit.com" false] "timer"
         tt None true 0.

Definition sandwichSite : BlockedSite unit :=
  mkSite "s3" "X"
         [mkRule "x.com" false; mkRule "x.com" true; mkRule "x.com" false]
         "timer" tt None true 0.

Definition redditTab : Tab :=
  mkTab (Some 7) (Some "https://www.reddit.com/r/test").

Definition sampleExtensionScheme : string := "moz-extension://".
Definition sampleBrowserScheme : string := "about:".
Definition sampleAlarmPrefix : string := "relock-".

(** A backend whose cache holds the two Reddit rule sets, the first of
    them unlocked until time 1000. *)
Definition firstUnlocked : Backend unit :=
  mkBackend [redditSite; redditWildcardSite]
            {[ "s1" := mkUnlock "s1" 1000 ]} ∅.

(** A backend whose cache holds one rule set, with an empty ledger. *)
Definition noGrant : Backend unit := mkBackend [redditSite] ∅ ∅.

(** ** The two halves of a match

    What lines 135-147 compute from the path part of a pattern and the
    lower-cased path of the URL, once the host has matched. *)
Definition pathMatches (pathPattern path : string) : bool :=
  if Js.includes pathPattern "*" then
    Js.regexTest (Js.compile pathPattern) path
  else
    String.eqb (Js.stripTrailingSlash path) (Js.stripTrailingSlash pathPattern)
    || Js.startsWith (Js.stripTrailingSlash path)
                     (Js.stripTrailingSlash pathPattern +:+ "/").

(** The rule evaluator in closed form: some rule matches and no allow rule
    does. *)
Definition anyRuleMatches (parseURL : string -> option URL) (url : string)
  (rs : list PatternRule) : bool :=
  existsb (fun r => urlMatchesPattern parseURL url (pattern r)) rs.

Definition anyAllowMatches (parseURL : string -> option URL) (url : string)
  (rs : list PatternRule) : bool :=
  existsb (fun r => allow r && urlMatchesPattern parseURL url (pattern r)) rs.

(** ** The regular expression source, before it is compiled

    The two [replace] calls of lines 120-122 (and 136-138, 157-159) on the
    text of the pattern, and a reader for the regular expressions they can
    produce. *)

(** The characters of the class in the first [replace]: each gets a
    backslash in front. *)
Definition isEscaped (c : ascii) : bool :=
  match c with
  | "."%char | "+"%char | "?"%char | "^"%char | "$"%char | "{"%char
  | "}"%char | "("%char | ")"%char | "|"%char | "["%char | "]"%char
  | "\"%char => true
  | _ => false
  end.

Fixpoint escapeRegex (p : string) : string :=
  match p with
  | EmptyString => EmptyString
  | String c r =>
      if isEscaped c then String "\" (String c (escapeRegex r))
      else String c (escapeRegex r)
  end.

(** The second [replace]: each star becomes dot-star. *)
Fixpoint starToDotStar (p : string) : string :=
  match p with
  | EmptyString => EmptyString
  | String c r =>
      if Ascii.eqb c "*" then String "." (String "*" (starToDotStar r))
      else String c (starToDotStar r)
  end.

(** The syntax characters of the regular expression grammar: outside an
    escape none of them stands for itself. *)
Definition isSyntaxChar (c : ascii) : bool :=
  match c with
  | "^"%char | "$"%char | "\"%char | "."%char | "*"%char | "+"%char
  | "?"%char | "("%char | ")"%char | "["%char | "]"%char | "{"%char
  | "}"%char | "|"%char => true
  | _ => false
  end.

(** Reading a regular expression made of ordinary characters, escaped
    syntax characters and dot-star; [None] for anything else. *)
Fixpoint readRegex (s : string) : option (list Js.atom) :=
  match s with
  | EmptyString => Some []
  | String c r =>
      if Ascii.eqb c "\" then
        match r with
        | String d r' =>
            if isSyntaxChar d then cons (Js.Lit d) <$> readRegex r' else None
        | EmptyString => None
        end
      else if Ascii.eqb c "." then
        match r with
        | String d r' =>
            if Ascii.eqb d "*" then cons Js.AnyStar <$> readRegex r' else None
        | EmptyString => None
        end
      else if isSyntaxChar c then None
      else cons (Js.Lit c) <$> readRegex r
  end.

(** The loop that a dot-star runs: try the rest of the expression here,
    or give one more character, not a line terminator, to the star. *)
Definition starLoop (k : string -> bool) : string -> bool :=
  fix star (t : string) : bool :=
    k t ||
    match t with
    | EmptyString => false
    | String d t' => if Js.isLineTerminator d then false else star t'
    end.

Fixpoint noLineBreak (s : string) : bool :=
  match s with
  | EmptyString => true
  | String c r => negb (Js.isLineTerminator c) && noLineBreak r
  end.

(** What it means for a string to match a list of atoms. *)
Inductive AtomsMatch : list Js.atom -> string -> Prop :=
  | am_nil : AtomsMatch [] ""
  | am_lit (c d : ascii) (re : list Js.atom) (s : string) :
      Js.canonChar c = Js.canonChar d ->
      AtomsMatch re s ->
      AtomsMatch (Js.Lit c :: re) (String d s)
  | am_star (re : list Js.atom) (m s : string) :
      noLineBreak m = true ->
      AtomsMatch re s ->
      AtomsMatch (Js.AnyStar :: re) (m +:+ s).

(** ** Well-formed ledgers

    Every grant is filed under its own site id, and the alarm of that site
    is set to the deadline of the grant. *)
Definition LedgerOk {C} (ALARM_PREFIX : string) (st : Backend C) : Prop :=
  forall k g,
    unlockedSites st !! k = Some g ->
    siteId g = k /\ alarms st !! (ALARM_PREFIX +:+ k) = Some (expiresAt g).

(** ** The locator of the blocked page

    [encodeURIComponent] on 8-bit code units: the unreserved characters
    stand for themselves, every other code unit is written as the
    percent-escaped bytes of its UTF-8 form, one byte below 128 and two
    bytes from 128 on. *)
Definition isUnreserved (c : ascii) : bool :=
  let n := Js.code c in
  ((65 <=? n) && (n <=? 90) || (97 <=? n) && (n <=? 122)
   || (48 <=? n) && (n <=? 57))%N
  || match c with
     | "-"%char | "_"%char | "."%char | "!"%char | "~"%char | "*"%char
     | "'"%char | "("%char | ")"%char => true
     | _ => false
     end.

(** The upper-case hexadecimal digit of a value below 16. *)
Definition hexDigit (n : N) : ascii :=
  if (n <? 10)%N then ascii_of_N (48 + n) else ascii_of_N (55 + n).

Definition percentByte (b : N) : string :=
  String "%" (String (hexDigit (b / 16)) (String (hexDigit (b mod 16)) "")).

Definition encodeChar (c : ascii) : string :=
  let n := Js.code c in
  if isUnreserved c then String c ""
  else if (n <? 128)%N then percentByte n
  else percentByte (192 + n / 64) +:+ percentByte (128 + n mod 64).

Fixpoint encodeURIComponent (s : string) : string :=
  match s with
  | EmptyString => EmptyString
  | String c r => encodeChar c +:+ encodeURIComponent r
  end.

(** Reading percent-escapes back, for the escapes that [encodeChar]
    writes. *)
Definition hexValue (c : ascii) : option N :=
  let n := Js.code c in
  if ((48 <=? n) && (n <=? 57))%N then Some (n - 48)%N
  else if ((65 <=? n) && (n <=? 70))%N then Some (n - 55)%N
  else None.

Fixpoint decodeComponent (s : string) : option string :=
  match s with
  | EmptyString => Some EmptyString
  | String c r =>
      if Ascii.eqb c "%" then
        match r with
        | String a (String b r1) =>
            match hexValue a, hexValue b with
            | Some x, Some y =>
                let n := (16 * x + y)%N in
                if (n <? 128)%N then
                  String (ascii_of_N n) <$> decodeComponent r1
                else
                  match r1 with
                  | String p (String a2 (String b2 r2)) =>
                      match Ascii.eqb p "%", hexValue a2, hexValue b2 with
                      | true, Some x2, Some y2 =>
                          let n2 := (16 * x2 + y2)%N in
                          String (ascii_of_N ((n - 192) * 64 + (n2 - 128)))
                            <$> decodeComponent r2
                      | _, _, _ => None
                      end
                  | _ => None
                  end
            | _, _ => None
            end
        | _ => None
        end
      else String c <$> decodeComponent r
  end.

Section BlockedPage.

(** [browser.runtime.getURL]: the address of a page of the extension. *)
Variable runtimeGetURL : string -> string.

(** The template literal of webRequest.ts:94-96 and index.ts:67-69,
    96-98. *)
Definition blockedPageUrl (url siteId : string) : string :=
  runtimeGetURL ("/blocked.html?url=" +:+ encodeURIComponent url
                 +:+ "&siteId=" +:+ encodeURIComponent siteId).

End BlockedPage.

(** ** The request listener ([onBeforeRequestListener]) *)

Record RequestDetails : Type := mkRequest {
  req_url : string;
  req_type : string;
  req_tabId : Z
}.

(** What the listener answers and does: [cancel] when it answers
    [{ cancel: true }] and not [undefined], and the [tabs.update] call it
    starts, if any, as the tab and the address. *)
Record ListenerOutcome : Type := mkOutcome {
  cancel : bool;
  tabUpdate : option (Z * string)
}.

Section Listener.

Context {C : Type}.
Variable parseURL : string -> option URL.
Variables extensionScheme browserScheme : string.
Variable runtimeGetURL : string -> string.

Definition onBeforeRequestListener (now : Z) (st : Backend C)
  (details : RequestDetails) : ListenerOutcome :=
  if negb (String.eqb (req_type details) "main_frame") then
    mkOutcome false None
  else
    let url := req_url details in
    let tabId := req_tabId details in
    if isInternalUrl extensionScheme browserScheme url then
      mkOutcome false None
    else
      let v := shouldBlockUrl parseURL now st url in
      match blocked v, site v with
      | true, Some s =>
          let blockedPage := blockedPageUrl runtimeGetURL url (id s) in
          mkOutcome true
                    (if negb (tabId =? 0) && negb (tabId =? -1)
                     then Some (tabId, blockedPage) else None)
      | _, _ => mkOutcome false None
      end.

End Listener.

(** The characters that [encodeURIComponent] can write. *)
Fixpoint allSafe (s : string) : bool :=
  match s with
  | EmptyString => true
  | String a r => (isUnreserved a || Ascii.eqb a "%") && allSafe r
  end.

(** ** Stored data ([src/lib/storage.ts], lines 24-91)

    [browser.storage.local] under the three keys of [STORAGE_KEYS], taken
    to be three different keys, each absent or holding a value. *)
Record SiteStats : Type := mkStats {
  stats_siteId : string;
  visitCount : Z;
  passedCount : Z;
  timeSpentMs : Z;
  lastVisit : Z
}.

Record Settings : Type := mkSettings {
  statsEnabled : bool
}.

Definition defaultSettings : Settings := mkSettings true.

Record Storage (C : Type) : Type := mkStorage {
  blockedSitesKey : option (list (BlockedSite C));
  statsKey : option (list SiteStats);
  settingsKey : option Settings
}.

Arguments mkStorage {C} _ _ _.
Arguments blockedSitesKey {C} _.
Arguments statsKey {C} _.
Arguments settingsKey {C} _.

(** The argument of [addBlockedSite]: a site without [id] and
    [createdAt]. *)
Record SiteDraft (C : Type) : Type := mkDraft {
  draft_name : string;
  draft_rules : list PatternRule;
  draft_unlockMethod : string;
  draft_challengeSettings : C;
  draft_autoRelockAfter : option Z;
  draft_enabled : bool
}.

Arguments mkDraft {C} _ _ _ _ _ _.
Arguments draft_name {C} _.
Arguments draft_rules {C} _.
Arguments draft_unlockMethod {C} _.
Arguments draft_challengeSettings {C} _.
Arguments draft_autoRelockAfter {C} _.
Arguments draft_enabled {C} _.

(** [Partial<BlockedSite>]: each field present or left out. *)
Record SiteUpdate (C : Type) : Type := mkUpdate {
  upd_id : option string;
  upd_name : option string;
  upd_rules : option (list PatternRule);
  upd_unlockMethod : option string;
  upd_challengeSettings : option C;
  upd_autoRelockAfter : option (option Z);
  upd_enabled : option bool;
  upd_createdAt : option Z
}.

Arguments mkUpdate {C} _ _ _ _ _ _ _ _.
Arguments upd_id {C} _.
Arguments upd_name {C} _.
Arguments upd_rules {C} _.
Arguments upd_unlockMethod {C} _.
Arguments upd_challengeSettings {C} _.
Arguments upd_autoRelockAfter {C} _.
Arguments upd_enabled {C} _.
Arguments upd_createdAt {C} _.

Section StorageOps.

Context {C : Type}.

Definition saveBlockedSites (sites : list (BlockedSite C)) (sto : Storage C)
  : Storage C :=
  mkStorage (Some sites) (statsKey sto) (settingsKey sto).

(** [Math.random().toString(36).substring(2, 10)] and [Date.now()] are
    arguments. *)
Definition addBlockedSite (randomId : string) (now : Z) (site : SiteDraft C)
  (sto : Storage C) : BlockedSite C * Storage C :=
  let sites := getBlockedSites (blockedSitesKey sto) in
  let newSite :=
    mkSite randomId (draft_name site) (draft_rules site)
           (draft_unlockMethod site) (draft_challengeSettings site)
           (draft_autoRelockAfter site) (draft_enabled site) now in
  (newSite, saveBlockedSites (sites ++ [newSite]) sto).

(** The object spread of a site and a partial site: the fields that the
    update holds replace those of the site. *)
Definition mergeSite (s : BlockedSite C) (updates : SiteUpdate C)
  : BlockedSite C :=
  mkSite (default (id s) (upd_id updates))
         (default (name s) (upd_name updates))
         (default (rules s) (upd_rules updates))
         (default (unlockMethod s) (upd_unlockMethod updates))
         (default (challengeSettings s) (upd_challengeSettings updates))
         (default (autoRelockAfter s) (upd_autoRelockAfter updates))
         (default (enabled s) (upd_enabled updates))
         (default (createdAt s) (upd_createdAt updates)).

(** [Array.prototype.findIndex]; [None] is JS's [-1]. *)
Fixpoint findIndex {A} (f : A -> bool) (l : list A) : option nat :=
  match l with
  | [] => None
  | x :: r => if f x then Some O else S <$> findIndex f r
  end.

Definition updateBlockedSite (id0 : string) (updates : SiteUpdate C)
  (sto : Storage C) : Storage C :=
  let sites := getBlockedSites (blockedSitesKey sto) in
  match findIndex (fun s => String.eqb (id s) id0) sites with
  | Some index =>
      saveBlockedSites (alter (fun s => mergeSite s updates) index sites) sto
  | None => sto
  end.

Definition getStats (sto : Storage C) : list SiteStats :=
  default [] (statsKey sto).

(** The stored settings spread over the defaults. *)
Definition getSettings (sto : Storage C) : Settings :=
  match settingsKey sto with
  | Some stored => mkSettings (statsEnabled stored)
  | None => defaultSettings
  end.

End StorageOps.

(** ** Message handlers and the alarm listener
       ([src/entrypoints/background/index.ts], on the build that runs the
       synchronous backend) *)

Record CheckBlockedResponse (C : Type) : Type := mkCheckBlocked {
  cb_blocked : bool;
  cb_site : option (BlockedSite C);
  cb_statsEnabled : bool
}.

Arguments mkCheckBlocked {C} _ _ _.
Arguments cb_blocked {C} _.
Arguments cb_site {C} _.
Arguments cb_statsEnabled {C} _.

(** The three shapes of the answer to [GET_SITE_INFO]: the last two
    fields are absent when there is no site, and [expiresAt] is there
    only with [alreadyUnlocked: true]. *)
Record SiteInfoResponse (C : Type) : Type := mkSiteInfo {
  si_site : option (BlockedSite C);
  si_statsEnabled : bool;
  si_alreadyUnlocked : option bool;
  si_expiresAt : option Z
}.

Arguments mkSiteInfo {C} _ _ _ _.
Arguments si_site {C} _.
Arguments si_statsEnabled {C} _.
Arguments si_alreadyUnlocked {C} _.
Arguments si_expiresAt {C} _.

Record UnlockStateResponse : Type := mkUnlockStateResponse {
  us_unlocked : bool;
  us_expiresAt : option Z
}.

Record UnlockSiteResponse : Type := mkUnlockSiteResponse {
  ul_success : bool;
  ul_expiresAt : Z
}.

Section Background.

Context {C : Type}.
Variable parseURL : string -> option URL.
Variables extensionScheme browserScheme : string.
Variable ALARM_PREFIX : string.
Variable runtimeGetURL : string -> string.

(** [case "CHECK_BLOCKED"] *)
Definition onCheckBlocked (now : Z) (url : string) (sto : Storage C)
  (st : Backend C) : CheckBlockedResponse C * Backend C :=
  match findMatchingBlockedSite parseURL (blockedSitesKey sto) url with
  | Some site =>
      let settings := getSettings sto in
      let '(unlocked, st') := isSiteUnlocked now (id site) st in
      (mkCheckBlocked (negb unlocked) (if unlocked then None else Some site)
                      (statsEnabled settings), st')
  | None => (mkCheckBlocked false None false, st)
  end.

(** [case "GET_SITE_INFO"]: [siteId] may be missing and, like [url], is
    used only when it is not the empty string. *)
Definition onGetSiteInfo (now : Z) (siteId : option string) (url : string)
  (sto : Storage C) (st : Backend C) : SiteInfoResponse C * Backend C :=
  let settings := getSettings sto in
  let byId :=
    match siteId with
    | Some k =>
        if String.eqb k "" then None
        else List.find (fun s => String.eqb (id s) k)
                       (getBlockedSites (blockedSitesKey sto))
    | None => None
    end in
  let site :=
    match byId with
    | Some s => Some s
    | None =>
        if String.eqb url "" then None
        else findMatchingBlockedSite parseURL (blockedSitesKey sto) url
    end in
  match site with
  | Some s =>
      let '(unlockState, st') := getUnlockState now (id s) st in
      match unlockState with
      | Some u =>
          (mkSiteInfo (Some s) (statsEnabled settings) (Some true)
                      (Some (expiresAt u)), st')
      | None =>
          (mkSiteInfo (Some s) (statsEnabled settings) (Some false) None,
           st')
      end
  | None => (mkSiteInfo None false None None, st)
  end.

(** [case "CHECK_UNLOCK_STATE"] *)
Definition onCheckUnlockState (now : Z) (siteId : string) (st : Backend C)
  : UnlockStateResponse * Backend C :=
  let '(unlockState, st') := getUnlockState now siteId st in
  (mkUnlockStateResponse (match unlockState with
                          | Some _ => true
                          | None => false
                          end)
                         (expiresAt <$> unlockState), st').

(** [case "UNLOCK_SITE"]; the [SITE_UNLOCKED] broadcast that follows the
    grant changes nothing here, and its failure is swallowed. *)
Definition onUnlockSite (now : Z) (siteId : string)
  (durationMinutes : option Z) (st : Backend C)
  : UnlockSiteResponse * Backend C :=
  let '(expiresAt, st') := grantAccess ALARM_PREFIX now siteId
                                       durationMinutes st in
  (mkUnlockSiteResponse true expiresAt, st').

(** [browser.tabs.get(tabId)]: the tab with that id, or an exception,
    which the listener catches. *)
Definition getTab (tabs : list Tab) (tabId : Z) : option Tab :=
  List.find (fun t => match tab_id t with
                      | Some i => i =? tabId
                      | None => false
                      end) tabs.

(** The [for] loop of the alarm listener, lines 62-75: the [tabs.update]
    calls it makes. *)
Fixpoint relockRedirects (siteId : string) (tabsNow : list Tab)
  (tabsToRedirect : list Z) : list (Z * string) :=
  match tabsToRedirect with
  | [] => []
  | tabId :: rest =>
      match getTab tabsNow tabId with
      | Some tab =>
          match tab_url tab with
          | Some u =>
              if String.eqb u "" then relockRedirects siteId tabsNow rest
              else (tabId, blockedPageUrl runtimeGetURL u siteId)
                   :: relockRedirects siteId tabsNow rest
          | None => relockRedirects siteId tabsNow rest
          end
      | None => relockRedirects siteId tabsNow rest
      end
  end.

(** The alarm listener, lines 54-83: the redirections, the site named in
    the [SITE_RELOCKED] message if one is sent, and the backend
    afterwards.  [tabs] is what [tabs.query] answers inside the handler,
    [tabsNow] what [tabs.get] sees in the loop. *)
Definition onAlarmListener (tabs tabsNow : list Tab) (alarmName : string)
  (st : Backend C) : list (Z * string) * option string * Backend C :=
  match handleRelockAlarm parseURL extensionScheme browserScheme
                          ALARM_PREFIX tabs alarmName st with
  | (None, st') => ([], None, st')
  | (Some (siteId, tabsToRedirect), st') =>
      (relockRedirects siteId tabsNow tabsToRedirect, Some siteId, st')
  end.

End Background.

(** ** Further data of the closed examples *)
Definition sandwichSwapped : BlockedSite unit :=
  mkSite "s3" "X"
         [mkRule "x.com" true; mkRule "x.com" false; mkRule "x.com" false]
         "timer" tt None true 0.

Definition disabledSite : BlockedSite unit :=
  mkSite "s4" "Reddit, switched off" [mkRule "reddit.com" false] "timer" tt
         None false 0.

Definition sampleGetURL (path : string) : string :=
  sampleExtensionScheme +:+ "distracted" +:+ path.

Definition sampleStorage : Storage unit :=
  mkStorage (Some [redditSite; redditWildcardSite]) None None.

Definition xDraft : SiteDraft unit :=
  mkDraft "X" [mkRule "x.com" false] "timer" tt None true.

Definition renameUpdate : SiteUpdate unit :=
  mkUpdate None (Some "Reddit, all of it") None None None None None None.

(** * Facts about the string primitives *)

Section StringFacts.

Lemma app_nil (s : string) : "" +:+ s = s.
Proof. reflexivity. Qed.

Lemma app_cons (c : ascii) (s t : string) :
  String c s +:+ t = String c (s +:+ t).
Proof. reflexivity. Qed.

Lemma app_nil_r (s : string) : s +:+ "" = s.
Proof.
  induction s as [|c s IH]; [reflexivity|].
  rewrite app_cons, IH. reflexivity.
Qed.

Lemma app_assoc_str (a b c : string) : (a +:+ b) +:+ c = a +:+ b +:+ c.
Proof.
  induction a as [|x a IH]; [reflexivity|].
  rewrite !app_cons, IH. reflexivity.
Qed.

Lemma eqb_true_iff (s t : string) : String.eqb s t = true <-> s = t.
Proof. apply String.eqb_eq. Qed.

Lemma startsWith_spec (s p : string) :
  Js.startsWith s p = true <-> exists r, s = p +:+ r.
Proof.
  revert s. induction p as [|a p IH]; intros s; simpl.
  - split; [intros _; exists s; reflexivity | reflexivity].
  - destruct s as [|b s].
    + split; [discriminate | intros [r Hr]; rewrite app_cons in Hr; discriminate].
    + rewrite andb_true_iff, Ascii.eqb_eq, IH. split.
      * intros [-> [r ->]]. exists r. reflexivity.
      * intros [r Hr]. rewrite app_cons in Hr. injection Hr as -> ->.
        split; [reflexivity | exists r; reflexivity].
Qed.

Lemma startsWith_app (p r : string) : Js.startsWith (p +:+ r) p = true.
Proof. apply startsWith_spec. exists r. reflexivity. Qed.

Lemma sliceFrom_app (p r : string) :
  Js.sliceFrom (String.length p) (p +:+ r) = r.
Proof.
  induction p as [|a p IH].
  - destruct r; reflexivity.
  - rewrite app_cons. exact IH.
Qed.

Lemma endsWith_spec (s p : string) :
  Js.endsWith s p = true <-> exists pre, s = pre +:+ p.
Proof.
  induction s as [|c s IH].
  - change (Js.endsWith "" p) with (String.eqb "" p || false).
    rewrite orb_false_r, eqb_true_iff. split.
    + intros <-. exists "". reflexivity.
    + intros [pre Hpre]. destruct pre as [|x pre].
      * exact Hpre.
      * rewrite app_cons in Hpre. discriminate.
  - change (Js.endsWith (String c s) p)
      with (String.eqb (String c s) p || Js.endsWith s p).
    rewrite orb_true_iff, eqb_true_iff, IH. split.
    + intros [<- | [pre ->]].
      * exists "". reflexivity.
      * exists (String c pre). reflexivity.
    + intros [pre Hpre]. destruct pre as [|x pre].
      * left. exact Hpre.
      * right. rewrite app_cons in Hpre. injection Hpre as -> ->.
        exists pre. reflexivity.
Qed.

Lemma includes_app (a b : string) (c : ascii) :
  Js.includes (a +:+ b) c = Js.includes a c || Js.includes b c.
Proof.
  induction a as [|x a IH]; [reflexivity|].
  rewrite app_cons. simpl. rewrite IH, orb_assoc. reflexivity.
Qed.

Lemma toLowerCase_app (a b : string) :
  Js.toLowerCase (a +:+ b) = Js.toLowerCase a +:+ Js.toLowerCase b.
Proof.
  induction a as [|x a IH]; [reflexivity|].
  rewrite app_cons. simpl. rewrite IH. reflexivity.
Qed.

Lemma trimEnd_keep (c : ascii) (s : string) :
  Js.isTrimmable c = false ->
  Js.trimEnd (String c s) = String c (Js.trimEnd s).
Proof.
  intros Hc. simpl. rewrite Hc. destruct (Js.trimEnd s); reflexivity.
Qed.


Lemma lowerChar_idem (c : ascii) : Js.lowerChar (Js.lowerChar c) = Js.lowerChar c.
Proof. destruct c as [[] [] [] [] [] [] [] []]; reflexivity. Qed.

Lemma isLower_toLowerCase (s : string) : isLower (Js.toLowerCase s).
Proof.
  induction s as [|c s IH]; simpl; [exact I|].
  split; [apply lowerChar_idem | exact IH].
Qed.

Lemma isLower_fixed (s : string) : isLower s <-> Js.toLowerCase s = s.
Proof.
  induction s as [|c s IH]; simpl.
  - split; auto.
  - rewrite IH. split.
    + intros [-> ->]. reflexivity.
    + intros [= -> ->]. auto.
Qed.

Lemma toLowerCase_idem (s : string) :
  Js.toLowerCase (Js.toLowerCase s) = Js.toLowerCase s.
Proof. apply isLower_fixed, isLower_toLowerCase. Qed.

Lemma isLower_sliceFrom (n : nat) (s : string) :
  isLower s -> isLower (Js.sliceFrom n s).
Proof.
  revert s. induction n as [|n IH]; intros s Hs.
  - destruct s; exact Hs.
  - destruct s as [|c s]; [exact Hs|]. simpl. apply IH, Hs.
Qed.

Lemma isLower_sliceTo (n : nat) (s : string) :
  isLower s -> isLower (Js.sliceTo n s).
Proof.
  revert s. induction n as [|n IH]; intros s Hs.
  - destruct s; exact I.
  - destruct s as [|c s]; [exact I|]. simpl. split; [apply Hs | apply IH, Hs].
Qed.

Lemma isLower_trimStart (s : string) : isLower s -> isLower (Js.trimStart s).
Proof.
  induction s as [|c s IH]; intros Hs; [exact I|].
  simpl. destruct (Js.isTrimmable c); [apply IH, Hs | exact Hs].
Qed.

Lemma isLower_trimEnd (s : string) : isLower s -> isLower (Js.trimEnd s).
Proof.
  induction s as [|c s IH]; [intros _; exact I | intros [Hc Hs]].
  simpl. specialize (IH Hs). destruct (Js.trimEnd s) as [|d r].
  - destruct (Js.isTrimmable c); simpl; auto.
  - simpl. auto.
Qed.

Lemma isLower_normalizePattern (pattern : string) :
  isLower (normalizePattern pattern).
Proof.
  unfold normalizePattern, Js.stripWww, Js.stripScheme, Js.trim.
  assert (H : isLower (Js.trimEnd (Js.trimStart (Js.toLowerCase pattern))))
    by apply isLower_trimEnd, isLower_trimStart, isLower_toLowerCase.
  repeat match goal with
         | |- context [if ?b then _ else _] => destruct b
         end; repeat apply isLower_sliceFrom; exact H.
Qed.

Lemma includes_trimEnd (s : string) (c : ascii) :
  Js.includes s c = false -> Js.includes (Js.trimEnd s) c = false.
Proof.
  induction s as [|a s IH]; [auto|].
  simpl. destruct (Ascii.eqb a c) eqn:Ha; [discriminate|].
  simpl. intros Hs. specialize (IH Hs).
  destruct (Js.trimEnd s) as [|d r].
  - destruct (Js.isTrimmable a); simpl; [reflexivity|].
    rewrite Ha. reflexivity.
  - simpl in *. rewrite Ha. exact IH.
Qed.

(** Removing one trailing slash leaves the string or cuts exactly one
    slash off its end. *)
Lemma stripTrailingSlash_cases (s : string) :
  (Js.stripTrailingSlash s = s /\ Js.endsWith s "/" = false)
  \/ s = Js.stripTrailingSlash s +:+ "/".
Proof.
  induction s as [|c s IH]; [left; split; reflexivity|].
  destruct s as [|d s].
  - simpl. destruct (Ascii.eqb c "/") eqn:Hc.
    + right. apply Ascii.eqb_eq in Hc. subst c. reflexivity.
    + left. split; reflexivity.
  - change (Js.stripTrailingSlash (String c (String d s)))
      with (String c (Js.stripTrailingSlash (String d s))).
    destruct IH as [[IH1 IH2] | IH].
    + left. rewrite IH1. split; [reflexivity|].
      change (Js.endsWith (String c (String d s)) "/")
        with (String.eqb (String c (String d s)) "/"
              || Js.endsWith (String d s) "/").
      rewrite IH2, orb_false_r. simpl.
      destruct (Ascii.eqb c "/"); reflexivity.
    + right. rewrite app_cons. f_equal. exact IH.
Qed.


Lemma snoc_inj (a b : string) (c d : ascii) :
  a +:+ String c "" = b +:+ String d "" -> a = b /\ c = d.
Proof.
  revert b. induction a as [|x a IH]; intros [|y b] H.
  - injection H as ->. auto.
  - rewrite app_nil, app_cons in H. injection H as -> H.
    destruct b; discriminate.
  - rewrite app_nil, app_cons in H. injection H as -> H.
    destruct a; discriminate.
  - rewrite !app_cons in H. injection H as -> H.
    destruct (IH _ H) as [-> ->]. auto.
Qed.

Lemma snoc_cases (s : string) :
  s = "" \/ exists r c, s = r +:+ String c "".
Proof.
  induction s as [|x s IH]; [left; reflexivity | right].
  destruct IH as [-> | (r & c & ->)].
  - exists "", x. reflexivity.
  - exists (String x r), c. reflexivity.
Qed.

(** Being a sub-path can be read off the path before or after its trailing
    slash is removed. *)
Lemma subpath_clean_or_raw (path q : string) :
  let cleanPath := Js.stripTrailingSlash path in
  (cleanPath = q \/ exists rest, cleanPath = q +:+ "/" +:+ rest)
  <-> (cleanPath = q \/ exists rest, path = q +:+ "/" +:+ rest).
Proof.
  intros cleanPath. subst cleanPath.
  destruct (stripTrailingSlash_cases path) as [[-> _] | Hcut]; [tauto|].
  set (cp := Js.stripTrailingSlash path) in *. split.
  - intros [H | [rest H]]; [left; exact H | right].
    exists (rest +:+ "/"). rewrite Hcut, H, !app_assoc_str. reflexivity.
  - intros [H | [rest H]]; [left; exact H|].
    rewrite H in Hcut. destruct (snoc_cases rest) as [-> | (r & c & ->)].
    + left. rewrite <- (app_assoc_str q "/" "") in Hcut.
      rewrite app_nil_r in Hcut. apply snoc_inj in Hcut as [Hq _].
      symmetry. exact Hq.
    + right. exists r.
      rewrite <- !app_assoc_str in Hcut. apply snoc_inj in Hcut as [Hq _].
      rewrite <- Hq, !app_assoc_str. reflexivity.
Qed.

End StringFacts.

(** * Properties of the matcher and of the rule evaluator *)

(** The first element of a list that satisfies a test: what
    [Array.prototype.find] returns. *)
Lemma find_first {A} (f : A -> bool) (l : list A) (x : A) :
  List.find f l = Some x <->
  exists l1 l2, l = l1 ++ x :: l2 /\ f x = true
                /\ Forall (fun y => f y = false) l1.
Proof.
  induction l as [|a l IH]; simpl.
  - split; [discriminate|].
    intros (l1 & l2 & Hl & _). destruct l1; discriminate.
  - destruct (f a) eqn:Hfa.
    + split.
      * intros [= <-]. exists [], l. auto.
      * intros (l1 & l2 & Hl & Hx & Hall). destruct l1 as [|b l1].
        -- simpl in Hl. injection Hl as -> _. reflexivity.
        -- simpl in Hl. injection Hl as -> _.
           inversion Hall; congruence.
    + rewrite IH. split.
      * intros (l1 & l2 & -> & Hx & Hall). exists (a :: l1), l2.
        repeat split; auto.
      * intros (l1 & l2 & Hl & Hx & Hall). destruct l1 as [|b l1].
        -- simpl in Hl. injection Hl as -> _. congruence.
        -- simpl in Hl. injection Hl as -> ->. inversion Hall; subst.
           exists l1, l2. auto.
Qed.

Lemma find_absent {A} (f : A -> bool) (l : list A) :
  List.find f l = None <-> Forall (fun y => f y = false) l.
Proof.
  induction l as [|a l IH]; simpl.
  - split; auto.
  - destruct (f a) eqn:Hfa.
    + split; [discriminate | intros H; inversion H; congruence].
    + rewrite IH. split; [auto | intros H; inversion H; auto].
Qed.

Section MatcherFacts.

Variable parseURL : string -> option URL.

Local Abbreviation matchesPattern := (urlMatchesPattern parseURL).
Local Abbreviation matchesSite := (urlMatchesSiteRules parseURL).
Local Abbreviation findSite := (findMatchingBlockedSite parseURL).

(** Once a matching allow rule is in the list, the scan ends in [false],
    whatever the flag was and whatever follows. *)
Lemma scanRules_allow (url : string) (rs : list PatternRule) :
  (exists r, In r rs /\ allow r = true /\ matchesPattern url (pattern r) = true) ->
  forall isBlocked, scanRules parseURL url rs isBlocked = false.
Proof.
  induction rs as [|r0 rs IH]; intros (r & Hin & Hallow & Hm) b.
  - destruct Hin.
  - simpl. destruct (matchesPattern url (pattern r0)) eqn:Hm0.
    + destruct (allow r0) eqn:Ha0; [reflexivity|].
      apply IH. exists r. destruct Hin as [-> | Hin]; [congruence | auto].
    + apply IH. exists r. destruct Hin as [-> | Hin]; [congruence | auto].
Qed.

(** C2. For an enabled site, a matching allow rule anywhere in the ordered
    rule list makes [urlMatchesSiteRules] return [false], whatever rules
    come before or after it; in particular a block rule, an allow rule and
    a block rule on the same pattern give [false] for a URL that matches
    the pattern. *)
Theorem allow_rule_overrides :
  (forall C (site : BlockedSite C) (url : string) (pre post : list PatternRule)
          (r : PatternRule),
      enabled site = true ->
      rules site = pre ++ r :: post ->
      allow r = true ->
      matchesPattern url (pattern r) = true ->
      matchesSite url site = false)
  /\
  (forall C (site : BlockedSite C) (url A : string),
      enabled site = true ->
      rules site = [mkRule A false; mkRule A true; mkRule A false] ->
      matchesPattern url A = true ->
      matchesSite url site = false).
Proof.
  split.
  - intros C site url pre post r Hen Hrules Hallow Hm.
    unfold urlMatchesSiteRules. rewrite Hen, Hrules. simpl.
    apply scanRules_allow. exists r. split; [|auto].
    apply in_or_app. right. left. reflexivity.
  - intros C site url A Hen Hrules Hm.
    unfold urlMatchesSiteRules. rewrite Hen, Hrules. simpl.
    rewrite Hm. reflexivity.
Qed.

(** C5. [findMatchingBlockedSite] returns the first site, in list order,
    for which [urlMatchesSiteRules] is true, and [null] exactly when there
    is none; a site that matches hides every site after it. *)
Theorem first_matching_site_wins :
  (forall C (sites : list (BlockedSite C)) (url : string) (s : BlockedSite C),
      findSite (Some sites) url = Some s <->
      exists before after,
        sites = before ++ s :: after
        /\ matchesSite url s = true
        /\ Forall (fun s' => matchesSite url s' = false) before)
  /\
  (forall C (sites : list (BlockedSite C)) (url : string),
      findSite (Some sites) url = None <->
      Forall (fun s' => matchesSite url s' = false) sites)
  /\
  (forall C (before after after' : list (BlockedSite C)) (url : string)
          (s : BlockedSite C),
      Forall (fun s' => matchesSite url s' = false) before ->
      matchesSite url s = true ->
      findSite (Some (before ++ s :: after)) url = Some s
      /\ findSite (Some (before ++ s :: after')) url = Some s).
Proof.
  split; [|split].
  - intros C sites url s. unfold findMatchingBlockedSite, getBlockedSites.
    simpl. apply find_first.
  - intros C sites url. unfold findMatchingBlockedSite, getBlockedSites.
    simpl. apply find_absent.
  - intros C before after after' url s Hbefore Hs.
    unfold findMatchingBlockedSite, getBlockedSites. simpl.
    split; apply find_first; eauto.
Qed.

(** C9. When the URL constructor rejects its input, the exception raised
    inside the [try] block is caught and [urlMatchesPattern] answers
    [false], for every pattern. *)
Theorem unparsable_url_fails_closed (url pattern : string) :
  parseURL url = None ->
  urlMatchesPattern_try parseURL url pattern = None
  /\ matchesPattern url pattern = false.
Proof.
  intros Hparse. unfold urlMatchesPattern, urlMatchesPattern_try.
  rewrite Hparse. simpl. split; reflexivity.
Qed.

(** C10. Two URLs with the same host name and the same path get the same
    answer from [urlMatchesPattern], for every pattern: scheme, port,
    query, fragment and credentials are not read. *)
Theorem match_depends_on_host_and_path (pattern url1 url2 : string)
  (o1 o2 : URL) :
  parseURL url1 = Some o1 ->
  parseURL url2 = Some o2 ->
  hostname o1 = hostname o2 ->
  pathname o1 = pathname o2 ->
  matchesPattern url1 pattern = matchesPattern url2 pattern.
Proof.
  intros H1 H2 Hhost Hpath. unfold urlMatchesPattern, urlMatchesPattern_try.
  rewrite H1, H2. simpl. rewrite Hhost, Hpath. reflexivity.
Qed.

End MatcherFacts.

(** * Properties of the pattern forms *)

Lemma pathPart_lower (pattern : string) :
  Js.toLowerCase (pathPart pattern) = pathPart pattern.
Proof.
  apply isLower_fixed, isLower_sliceFrom, isLower_normalizePattern.
Qed.

(** The normal form of a wildcard-domain pattern: only the white space at
    its end goes. *)
Lemma normalizePattern_wildcard (d : string) :
  Js.toLowerCase d = d ->
  normalizePattern ("*." +:+ d) = "*." +:+ Js.trimEnd d.
Proof.
  intros Hd. unfold normalizePattern.
  rewrite toLowerCase_app, Hd.
  change (Js.toLowerCase "*." +:+ d) with (String "*" (String "." d)).
  unfold Js.trim.
  change (Js.trimStart (String "*" (String "." d)))
    with (String "*" (String "." d)).
  rewrite !trimEnd_keep by reflexivity.
  reflexivity.
Qed.

Section PatternFacts.

Variable parseURL : string -> option URL.

Local Abbreviation matchesPattern := (urlMatchesPattern parseURL).

(** What the matcher computes for a wildcard-domain pattern without a
    slash. *)
Lemma wildcard_domain_eval (url d : string) (o : URL) :
  parseURL url = Some o ->
  Js.toLowerCase d = d ->
  Js.includes d "/" = false ->
  let h' := Js.stripWww (Js.toLowerCase (hostname o)) in
  let t := Js.trimEnd d in
  matchesPattern url ("*." +:+ d)
  = String.eqb h' t || Js.endsWith h' ("." +:+ t).
Proof.
  intros Hparse Hlow Hslash h' t. subst h' t.
  unfold urlMatchesPattern, urlMatchesPattern_try.
  rewrite Hparse. cbn [mbind option_bind].
  rewrite normalizePattern_wildcard by exact Hlow.
  rewrite !toLowerCase_idem.
  assert (Hs : Js.includes ("*." +:+ Js.trimEnd d) "/" = false).
  { rewrite includes_app. rewrite (includes_trimEnd d "/" Hslash).
    reflexivity. }
  rewrite Hs.
  change (Js.startsWith ("*." +:+ Js.trimEnd d) "*.") with true.
  cbv iota.
  change (Js.sliceFrom 2 ("*." +:+ Js.trimEnd d)) with (Js.trimEnd d).
  reflexivity.
Qed.

(** The same pattern for any lower-case text without a slash: the white
    space at the end of the pattern is trimmed away before the domain is
    read off it. *)
Lemma wildcard_domain_trimmed (url d : string) (o : URL) :
  parseURL url = Some o ->
  Js.toLowerCase d = d ->
  Js.includes d "/" = false ->
  let h' := Js.stripWww (Js.toLowerCase (hostname o)) in
  let t := Js.trimEnd d in
  matchesPattern url ("*." +:+ d) = true <->
  h' = t \/ exists sub, h' = sub +:+ "." +:+ t.
Proof.
  intros Hparse Hlow Hslash h' t.
  rewrite (wildcard_domain_eval url d o Hparse Hlow Hslash).
  fold h' t. rewrite orb_true_iff, eqb_true_iff, endsWith_spec.
  reflexivity.
Qed.

(** C3. For a parsable URL and a lower-case domain string [d], which holds
    no slash and does not end in white space, the host-only pattern
    "*." + d matches exactly when the lower-cased host name with one
    leading "www." removed is [d] or ends with "." + d. *)
Theorem wildcard_domain_pattern (url d : string) (o : URL) :
  parseURL url = Some o ->
  Js.toLowerCase d = d ->
  Js.includes d "/" = false ->
  Js.trimEnd d = d ->
  let h' := Js.stripWww (Js.toLowerCase (hostname o)) in
  matchesPattern url ("*." +:+ d) = true <->
  h' = d \/ exists sub, h' = sub +:+ "." +:+ d.
Proof.
  intros Hparse Hlow Hslash Htrim h'.
  pose proof (wildcard_domain_trimmed url d o Hparse Hlow Hslash) as Hmain.
  cbv zeta in Hmain. rewrite Htrim in Hmain. exact Hmain.
Qed.

(** C4. For a pattern with a slash whose path part has no star, and a
    parsable URL whose host matches the host part, the match succeeds
    exactly when the lower-cased path of the URL equals the path part, one
    trailing slash ignored on each side, or continues it after a slash;
    the pattern "x.com/messages" matches https://x.com/messages/123 and
    not https://x.com/home. *)
Theorem path_scoped_pattern :
  (forall (url pattern : string) (o : URL),
      parseURL url = Some o ->
      Js.includes (normalizePattern pattern) "/" = true ->
      Js.includes (pathPart pattern) "*" = false ->
      hostMatches (hostPart pattern)
                  (Js.stripWww (Js.toLowerCase (hostname o)))
                  (Js.toLowerCase (hostname o)) = true ->
      let path := Js.toLowerCase (pathname o) in
      let cleanPath := Js.stripTrailingSlash path in
      let cleanPattern := Js.stripTrailingSlash (pathPart pattern) in
      (matchesPattern url pattern = true <->
       cleanPath = cleanPattern
       \/ exists rest, cleanPath = cleanPattern +:+ "/" +:+ rest)
      /\ (matchesPattern url pattern = true <->
          cleanPath = cleanPattern
          \/ exists rest, path = cleanPattern +:+ "/" +:+ rest))
  /\
  (forall o : URL,
      parseURL "https://x.com/messages/123" = Some o ->
      hostname o = "x.com" -> pathname o = "/messages/123" ->
      matchesPattern "https://x.com/messages/123" "x.com/messages" = true)
  /\
  (forall o : URL,
      parseURL "https://x.com/home" = Some o ->
      hostname o = "x.com" -> pathname o = "/home" ->
      matchesPattern "https://x.com/home" "x.com/messages" = false).
Proof.
  split; [|split].
  - intros url pattern o Hparse Hslash Hstar Hhost path cleanPath cleanPattern.
    assert (Hmain : matchesPattern url pattern = true <->
                    cleanPath = cleanPattern
                    \/ exists rest, cleanPath = cleanPattern +:+ "/" +:+ rest).
    { unfold urlMatchesPattern, urlMatchesPattern_try.
      rewrite Hparse. cbn [mbind option_bind].
      rewrite Hslash. cbv iota.
      fold (hostPart pattern) (pathPart pattern).
      rewrite !toLowerCase_idem, pathPart_lower.
      rewrite Hhost, Hstar. cbn [negb].
      fold path. fold cleanPath cleanPattern.
      rewrite orb_true_iff, eqb_true_iff, startsWith_spec.
      split; (intros [H | [rest H]]; [left; exact H | right; exists rest]).
      - rewrite H, app_assoc_str. reflexivity.
      - rewrite H, app_assoc_str. reflexivity. }
    split; [exact Hmain|].
    rewrite Hmain. apply subpath_clean_or_raw.
  - intros o Hparse Hh Hp. unfold urlMatchesPattern, urlMatchesPattern_try.
    rewrite Hparse. cbn [mbind option_bind]. rewrite Hh, Hp. reflexivity.
  - intros o Hparse Hh Hp. unfold urlMatchesPattern, urlMatchesPattern_try.
    rewrite Hparse. cbn [mbind option_bind]. rewrite Hh, Hp. reflexivity.
Qed.

End PatternFacts.

(** * Properties of the synchronous backend and of the unlock ledger *)

Section BackendFacts.

Context {C : Type}.
Variable parseURL : string -> option URL.
Variables extensionScheme browserScheme : string.
Variable ALARM_PREFIX : string.

Local Abbreviation matchesSite := (urlMatchesSiteRules parseURL).
Local Abbreviation findSite := (findMatchingBlockedSite parseURL).
Local Abbreviation decide_sync := (shouldBlockUrl parseURL).
Local Abbreviation grant := (grantAccess ALARM_PREFIX).
Local Abbreviation revoke :=
  (revokeAccess parseURL extensionScheme browserScheme ALARM_PREFIX).
Local Abbreviation onAlarm :=
  (handleRelockAlarm parseURL extensionScheme browserScheme ALARM_PREFIX).
Local Abbreviation tabsOn :=
  (findTabsOnBlockedSite parseURL extensionScheme browserScheme).

Lemma gtb_not_leb (a b : Z) : (a >? b) = negb (a <=? b).
Proof. rewrite Z.gtb_ltb. apply Z.ltb_antisym. Qed.

(** The ledger query answers the live-grant test. *)
Lemma isSiteUnlocked_live (now : Z) (siteId : string) (st : Backend C) :
  fst (isSiteUnlocked now siteId st) = liveGrant now (unlockedSites st) siteId.
Proof.
  unfold isSiteUnlocked, liveGrant.
  destruct (unlockedSites st !! siteId) as [g|]; [|reflexivity].
  rewrite gtb_not_leb. destruct (expiresAt g <=? now); reflexivity.
Qed.

Lemma shouldBlockUrl_loop_find (now : Z) (ledger : gmap string UnlockState)
  (url : string) (sites : list (BlockedSite C)) :
  shouldBlockUrl_loop parseURL now ledger url sites
  = match List.find (blocksNow parseURL now ledger url) sites with
    | Some s => mkVerdict true (Some s)
    | None => mkVerdict false None
    end.
Proof.
  induction sites as [|s sites IH]; [reflexivity|].
  simpl. unfold blocksNow at 1. unfold liveGrant.
  destruct (enabled s) eqn:Hen; simpl.
  - destruct (ledger !! id s) as [g|].
    + destruct (expiresAt g >? now); simpl.
      * rewrite andb_false_r. exact IH.
      * rewrite andb_true_r.
        destruct (matchesSite url s); [reflexivity | exact IH].
    + rewrite andb_true_r.
      destruct (matchesSite url s); [reflexivity | exact IH].
  - unfold urlMatchesSiteRules at 1. rewrite Hen. simpl. exact IH.
Qed.

(** On a URL that is not internal, [checkAndBlockUrl] redirects exactly
    when the pipeline decision is to block, and to the first matching
    site. *)
Lemma checkAndBlockUrl_pipeline (now : Z) (st : Backend C) (url : string)
  (stored : option (list (BlockedSite C))) :
  isInternalUrl extensionScheme browserScheme url = false ->
  fst (checkAndBlockUrl parseURL extensionScheme browserScheme now stored
                        url st)
  = if pipelineBlocks parseURL now stored st url then findSite stored url
    else None.
Proof.
  intros Hint. unfold checkAndBlockUrl, pipelineBlocks. rewrite Hint.
  destruct (findSite stored url) as [s|]; [|reflexivity].
  destruct (isSiteUnlocked now (id s) st) as [[] st']; reflexivity.
Qed.

Lemma blocksNow_matches (now : Z) (ledger : gmap string UnlockState)
  (url : string) (sites : list (BlockedSite C)) :
  Forall (fun s => matchesSite url s = false) sites ->
  Forall (fun s => blocksNow parseURL now ledger url s = false) sites.
Proof.
  intros H. eapply Forall_impl; [exact H|].
  intros s Hs. unfold blocksNow. simpl in Hs. rewrite Hs. reflexivity.
Qed.

(** C1 (amended). [shouldBlockUrl] returns the first cached site that
    matches the URL and holds no live grant, and reports blocked exactly
    when there is one: a site with a live grant is passed over and the
    sites after it are still tried.  Whenever the pipeline (first matching
    site, then the ledger's answer for it) blocks, [shouldBlockUrl] blocks
    with that same site; the two decisions agree whenever the first
    matching site, if any, is not unlocked. *)
Theorem shouldBlockUrl_skips_unlocked (now : Z) (st : Backend C)
  (url : string) :
  let v := decide_sync now st url in
  let sites := cachedSites st in
  site v = List.find (blocksNow parseURL now (unlockedSites st) url) sites
  /\ (blocked v = true <->
      exists s, In s sites /\ matchesSite url s = true
                /\ fst (isSiteUnlocked now (id s) st) = false)
  /\ (pipelineBlocks parseURL now (Some sites) st url = true ->
      blocked v = true /\ site v = findSite (Some sites) url)
  /\ ((forall s, findSite (Some sites) url = Some s ->
                 fst (isSiteUnlocked now (id s) st) = false) ->
      blocked v = pipelineBlocks parseURL now (Some sites) st url).
Proof.
  intros v sites. subst v sites. unfold shouldBlockUrl.
  rewrite shouldBlockUrl_loop_find.
  set (f := blocksNow parseURL now (unlockedSites st) url).
  assert (Hpipe : forall s, findSite (Some (cachedSites st)) url = Some s ->
                            fst (isSiteUnlocked now (id s) st) = false ->
                            List.find f (cachedSites st) = Some s).
  { intros s Hfind Hlocked.
    apply find_first in Hfind as (before & after & Heq & Hm & Hbefore).
    apply find_first. exists before, after. split; [exact Heq|]. split.
    - unfold f, blocksNow. rewrite Hm, <- isSiteUnlocked_live, Hlocked.
      reflexivity.
    - apply blocksNow_matches, Hbefore. }
  split; [|split; [|split]].
  - destruct (List.find f (cachedSites st)); reflexivity.
  - destruct (List.find f (cachedSites st)) as [s|] eqn:Hf; simpl.
    + apply List.find_some in Hf as [Hin Hfs].
      unfold f, blocksNow in Hfs. apply andb_true_iff in Hfs as [Hm Hl].
      split; [intros _ | reflexivity].
      exists s. rewrite isSiteUnlocked_live.
      apply negb_true_iff in Hl. auto.
    + split; [discriminate|]. intros (s & Hin & Hm & Hl).
      pose proof (List.find_none _ _ Hf s Hin) as Hfs.
      unfold f, blocksNow in Hfs.
      rewrite Hm, <- isSiteUnlocked_live, Hl in Hfs. discriminate.
  - unfold pipelineBlocks.
    destruct (findSite (Some (cachedSites st)) url) as [s|] eqn:Hfind;
      [|discriminate].
    intros Hl. apply negb_true_iff in Hl.
    rewrite (Hpipe s eq_refl Hl). split; reflexivity.
  - intros Hlocked. unfold pipelineBlocks.
    destruct (findSite (Some (cachedSites st)) url) as [s|] eqn:Hfind.
    + rewrite (Hpipe s eq_refl (Hlocked s eq_refl)), (Hlocked s eq_refl).
      reflexivity.
    + unfold findMatchingBlockedSite in Hfind.
      change (getBlockedSites (Some (cachedSites st)))
        with (cachedSites st) in Hfind.
      apply find_absent in Hfind.
      apply (blocksNow_matches now (unlockedSites st)) in Hfind.
      apply find_absent in Hfind. fold f in Hfind. rewrite Hfind.
      reflexivity.
Qed.

(** C6. [grantAccess] returns [now] plus the duration in minutes, 60 when
    it is [null], stores that grant in place of any earlier one for the
    site and sets the alarm of the site to that deadline.  Before the deadline [isSiteUnlocked] answers [true]; from the
    deadline on, [isSiteUnlocked] and [getUnlockState] delete the entry and
    answer [false] and [null], and so does every later call. *)
Theorem grant_then_lazy_expiry (now : Z) (siteId : string)
  (durationMinutes : option Z) (st : Backend C) :
  let e := fst (grant now siteId durationMinutes st) in
  let st1 := snd (grant now siteId durationMinutes st) in
  e = now + default 60 durationMinutes * 60 * 1000
  /\ unlockedSites st1 !! siteId = Some (mkUnlock siteId e)
  /\ alarms st1 !! (ALARM_PREFIX +:+ siteId) = Some e
  /\ (forall other, other <> siteId ->
        unlockedSites st1 !! other = unlockedSites st !! other)
  /\ (forall t, t < e ->
        isSiteUnlocked t siteId st1 = (true, st1)
        /\ getUnlockState t siteId st1 = (Some (mkUnlock siteId e), st1))
  /\ (forall t, e <= t ->
        exists st2,
          isSiteUnlocked t siteId st1 = (false, st2)
          /\ getUnlockState t siteId st1 = (None, st2)
          /\ unlockedSites st2 !! siteId = None
          /\ forall t', isSiteUnlocked t' siteId st2 = (false, st2)
                        /\ getUnlockState t' siteId st2 = (None, st2)).
Proof.
  intros e st1. subst e st1. unfold grantAccess. cbn [fst snd].
  set (e := now + default 60 durationMinutes * 60 * 1000).
  split; [reflexivity|]. split; [apply lookup_insert_eq|].
  split; [apply lookup_insert_eq|].
  split; [intros other Hne; apply lookup_insert_ne; congruence|].
  split.
  - intros t Ht. unfold isSiteUnlocked, getUnlockState. cbn [unlockedSites].
    rewrite lookup_insert_eq. cbn [expiresAt].
    destruct (Z.leb_spec e t) as [Hle | _]; [lia|]. split; reflexivity.
  - intros t Ht. eexists.
    unfold isSiteUnlocked, getUnlockState. cbn [unlockedSites].
    rewrite lookup_insert_eq. cbn [expiresAt].
    destruct (Z.leb_spec e t) as [_ | Hlt]; [|lia].
    split; [reflexivity|]. split; [reflexivity|].
    cbn [unlockedSites cachedSites alarms].
    split; [apply lookup_delete_eq|].
    intros t'. rewrite lookup_delete_eq. split; reflexivity.
Qed.

(** C7 (amended). [handleRelockAlarm] compares nothing with the grant in
    the ledger: for every alarm name made of the prefix and a site id it
    removes the ledger entry of that site and the alarm of that name,
    whatever the grant's deadline is, and reports the site with its open
    tabs; an alarm name without the prefix changes nothing. *)
Theorem relock_alarm_evicts_unconditionally :
  (forall (tabs : list Tab) (siteId : string) (st : Backend C),
      let r := onAlarm tabs (ALARM_PREFIX +:+ siteId) st in
      fst r = Some (siteId, tabsOn tabs siteId st)
      /\ unlockedSites (snd r) = delete siteId (unlockedSites st)
      /\ unlockedSites (snd r) !! siteId = None
      /\ alarms (snd r) = delete (ALARM_PREFIX +:+ siteId) (alarms st)
      /\ cachedSites (snd r) = cachedSites st)
  /\
  (forall (tabs : list Tab) (alarmName : string) (st : Backend C),
      Js.startsWith alarmName ALARM_PREFIX = false ->
      onAlarm tabs alarmName st = (None, st)).
Proof.
  split.
  - intros tabs siteId st r. subst r. unfold handleRelockAlarm.
    rewrite startsWith_app, sliceFrom_app. cbn [negb].
    unfold revokeAccess. cbn [fst snd unlockedSites alarms cachedSites].
    split; [reflexivity|]. split; [reflexivity|].
    split; [apply lookup_delete_eq|]. split; reflexivity.
  - intros tabs alarmName st Hname. unfold handleRelockAlarm.
    rewrite Hname. reflexivity.
Qed.

(** The tabs that [findTabsOnBlockedSite] collects for a site. *)
Lemma matchingTabs_In (s : BlockedSite C) (tabs : list Tab) (i : Z) :
  In i (matchingTabs parseURL extensionScheme browserScheme s tabs) <->
  exists tab u,
    In tab tabs /\ tab_id tab = Some i /\ i <> 0
    /\ tab_url tab = Some u /\ u <> ""
    /\ isInternalUrl extensionScheme browserScheme u = false
    /\ matchesSite u s = true.
Proof.
  induction tabs as [|tab tabs IH].
  - simpl. split; [tauto | intros (tab & u & [] & _)].
  - assert (Hrest : In i (matchingTabs parseURL extensionScheme browserScheme
                                       s tabs) ->
                    exists tab' u, In tab' (tab :: tabs) /\ tab_id tab' = Some i
                      /\ i <> 0 /\ tab_url tab' = Some u /\ u <> ""
                      /\ isInternalUrl extensionScheme browserScheme u = false
                      /\ matchesSite u s = true).
    { intros Hin. apply IH in Hin as (tab' & u & Hin & H).
      exists tab', u. split; [right; exact Hin | exact H]. }
    simpl. split.
    + destruct (tab_id tab) as [j|] eqn:Hid; [|exact Hrest].
      destruct (tab_url tab) as [u|] eqn:Hurl; [|exact Hrest].
      destruct (Z.eqb_spec j 0) as [Hj | Hj]; [exact Hrest|].
      destruct (String.eqb_spec u "") as [Hu | Hu]; [exact Hrest|]. simpl.
      destruct (isInternalUrl extensionScheme browserScheme u) eqn:Hint;
        [exact Hrest|].
      destruct (matchesSite u s) eqn:Hm; [|exact Hrest].
      intros [<- | Hin]; [|exact (Hrest Hin)].
      exists tab, u. repeat split; auto.
    + intros (tab' & u & [<- | Hin] & Hid & Hi & Hurl & Hu & Hint & Hm).
      * rewrite Hid, Hurl.
        destruct (Z.eqb_spec i 0) as [? | _]; [contradiction|].
        destruct (String.eqb_spec u "") as [? | _]; [contradiction|]. simpl.
        rewrite Hint, Hm. left. reflexivity.
      * assert (Hin' : In i (matchingTabs parseURL extensionScheme
                                          browserScheme s tabs)).
        { apply IH. exists tab', u. auto 10. }
        destruct (tab_id tab) as [j|]; [|exact Hin'].
        destruct (tab_url tab) as [w|]; [|exact Hin'].
        destruct ((j =? 0) || String.eqb w ""); [exact Hin'|].
        destruct (isInternalUrl extensionScheme browserScheme w);
          [exact Hin'|].
        destruct (matchesSite w s); [right|]; exact Hin'.
Qed.

(** C8 (amended). [revokeAccess] returns for every site id, with or
    without a grant, and leaves no grant for it.  Its list is empty when no
    cached site has that id.  For a cached site the list does not depend
    on the ledger: it holds the ids of the open tabs, internal pages
    excluded, whose URL matches the rules of the site. *)
Theorem revoke_is_total_and_ignores_ledger :
  (forall (tabs : list Tab) (siteId : string) (st : Backend C),
      exists st',
        revoke tabs siteId st = (tabsOn tabs siteId st, st')
        /\ unlockedSites st' !! siteId = None
        /\ cachedSites st' = cachedSites st)
  /\
  (forall (tabs : list Tab) (siteId : string) (st : Backend C),
      Forall (fun s => id s <> siteId) (cachedSites st) ->
      fst (revoke tabs siteId st) = [])
  /\
  (forall (tabs : list Tab) (siteId : string) (st : Backend C)
          (ledger : gmap string UnlockState),
      fst (revoke tabs siteId st)
      = fst (revoke tabs siteId
                    (mkBackend (cachedSites st) ledger (alarms st))))
  /\
  (forall (tabs : list Tab) (siteId : string) (st : Backend C)
          (s : BlockedSite C) (i : Z),
      List.find (fun s' => String.eqb (id s') siteId) (cachedSites st)
      = Some s ->
      (In i (fst (revoke tabs siteId st)) <->
       exists tab u,
         In tab tabs /\ tab_id tab = Some i /\ i <> 0
         /\ tab_url tab = Some u /\ u <> ""
         /\ isInternalUrl extensionScheme browserScheme u = false
         /\ matchesSite u s = true)).
Proof.
  split; [|split; [|split]].
  - intros tabs siteId st. eexists. unfold revokeAccess. split; [reflexivity|].
    cbn [unlockedSites cachedSites]. split; [apply lookup_delete_eq|].
    reflexivity.
  - intros tabs siteId st Hunknown. unfold revokeAccess, findTabsOnBlockedSite.
    cbn [fst cachedSites].
    destruct (List.find _ (cachedSites st)) as [s|] eqn:Hfind; [|reflexivity].
    apply List.find_some in Hfind as [Hin Hid].
    rewrite List.Forall_forall in Hunknown. apply Hunknown in Hin.
    apply String.eqb_eq in Hid. contradiction.
  - intros tabs siteId st ledger. reflexivity.
  - intros tabs siteId st s i Hfind. unfold revokeAccess, findTabsOnBlockedSite.
    cbn [fst cachedSites]. rewrite Hfind. apply matchingTabs_In.
Qed.

End BackendFacts.

(** * Closed instances

    Each statement below is one of the theorems above at a concrete input,
    with its hypotheses checked by evaluation, or a concrete run that
    separates the code from a sentence of the design document. *)

Lemma allow_rule_overrides_witness :
  enabled sandwichSite = true
  /\ urlMatchesPattern parseSimpleURL "https://x.com/home" "x.com" = true
  /\ urlMatchesSiteRules parseSimpleURL "https://x.com/home" sandwichSite
     = false.
Proof.
  split; [reflexivity|]. split; [vm_compute; reflexivity|].
  destruct (allow_rule_overrides parseSimpleURL) as [Hgen Hthree].
  assert (Hgen' :
    urlMatchesSiteRules parseSimpleURL "https://x.com/home" sandwichSite
    = false).
  { apply (Hgen unit sandwichSite "https://x.com/home"
                [mkRule "x.com" false] [mkRule "x.com" false]
                (mkRule "x.com" true));
      [reflexivity | reflexivity | reflexivity | vm_compute; reflexivity]. }
  apply (Hthree unit sandwichSite "https://x.com/home" "x.com");
    [reflexivity | reflexivity | vm_compute; reflexivity].
Defined.

Lemma first_matching_site_wins_witness :
  urlMatchesSiteRules parseSimpleURL "https://www.reddit.com/r/test"
                      redditSite = true
  /\ urlMatchesSiteRules parseSimpleURL "https://www.reddit.com/r/test"
                         redditWildcardSite = true
  /\ findMatchingBlockedSite parseSimpleURL
       (Some [sandwichSite; redditSite; redditWildcardSite])
       "https://www.reddit.com/r/test" = Some redditSite.
Proof.
  split; [vm_compute; reflexivity|]. split; [vm_compute; reflexivity|].
  destruct (first_matching_site_wins parseSimpleURL) as (_ & _ & Hfirst).
  apply (Hfirst unit [sandwichSite] [redditWildcardSite] []
                "https://www.reddit.com/r/test" redditSite).
  - repeat constructor.
  - vm_compute. reflexivity.
Defined.

Lemma unparsable_url_fails_closed_witness :
  parseSimpleURL "not a url" = None
  /\ urlMatchesPattern parseSimpleURL "not a url" "reddit.com" = false.
Proof.
  split; [reflexivity|].
  apply (unparsable_url_fails_closed parseSimpleURL "not a url" "reddit.com").
  reflexivity.
Defined.

Lemma match_depends_on_host_and_path_witness :
  hostname (mkURL "https:" "" "" "x.com" "" "/messages" "?tab=1" "")
  = hostname (mkURL "http:" "me" "pw" "x.com" "8080" "/messages" "" "#top")
  /\ urlMatchesPattern parseSimpleURL "https://x.com/messages?tab=1"
                       "x.com/messages"
     = urlMatchesPattern parseSimpleURL
                         "http://me:pw@x.com:8080/messages#top"
                         "x.com/messages".
Proof.
  split; [reflexivity|].
  apply (match_depends_on_host_and_path parseSimpleURL "x.com/messages"
           "https://x.com/messages?tab=1"
           "http://me:pw@x.com:8080/messages#top"
           (mkURL "https:" "" "" "x.com" "" "/messages" "?tab=1" "")
           (mkURL "http:" "me" "pw" "x.com" "8080" "/messages" "" "#top"));
    reflexivity.
Defined.

Lemma wildcard_domain_pattern_witness :
  Js.toLowerCase "reddit.com" = "reddit.com"
  /\ Js.includes "reddit.com" "/" = false
  /\ Js.trimEnd "reddit.com" = "reddit.com"
  /\ (urlMatchesPattern parseSimpleURL "https://www.old.reddit.com/"
                        "*.reddit.com" = true <->
      "old.reddit.com" = "reddit.com"
      \/ exists sub, "old.reddit.com" = sub +:+ "." +:+ "reddit.com").
Proof.
  split; [reflexivity|]. split; [reflexivity|]. split; [reflexivity|].
  apply (wildcard_domain_pattern parseSimpleURL "https://www.old.reddit.com/"
           "reddit.com"
           (mkURL "https:" "" "" "www.old.reddit.com" "" "/" "" ""));
    reflexivity.
Defined.

(** Why the domain string of [wildcard_domain_trimmed] is read after
    trimming: a pattern text with a space at its end still matches the
    host [a.com], though the host neither is that text nor ends with
    it. *)
Lemma wildcard_domain_trailing_space :
  parseSimpleURL "https://a.com/"
  = Some (mkURL "https:" "" "" "a.com" "" "/" "" "")
  /\ Js.toLowerCase "a.com " = "a.com "
  /\ Js.includes ("*." +:+ "a.com ") "/" = false
  /\ urlMatchesPattern parseSimpleURL "https://a.com/" ("*." +:+ "a.com ")
     = true
  /\ ~ (Js.stripWww (Js.toLowerCase "a.com") = "a.com "
        \/ exists sub,
             Js.stripWww (Js.toLowerCase "a.com") = sub +:+ "." +:+ "a.com ").
Proof.
  split; [reflexivity|]. split; [reflexivity|]. split; [reflexivity|].
  split; [vm_compute; reflexivity|].
  intros [H | H]; [discriminate H|].
  apply endsWith_spec in H. vm_compute in H. discriminate H.
Qed.

Lemma path_scoped_pattern_witness :
  Js.includes (normalizePattern "https://www.X.com/Messages/") "/" = true
  /\ pathPart "https://www.X.com/Messages/" = "/messages/"
  /\ urlMatchesPattern parseSimpleURL "https://x.com/messages/123"
                       "https://www.X.com/Messages/" = true
  /\ urlMatchesPattern parseSimpleURL "https://x.com/messages/123"
                       "x.com/messages" = true
  /\ urlMatchesPattern parseSimpleURL "https://x.com/home" "x.com/messages"
     = false.
Proof.
  destruct (path_scoped_pattern parseSimpleURL) as (Hgen & Hyes & Hno).
  split; [reflexivity|]. split; [reflexivity|]. split; [|split].
  - pose proof (Hgen "https://x.com/messages/123"
                     "https://www.X.com/Messages/"
                     (mkURL "https:" "" "" "x.com" "" "/messages/123" "" "")
                     eq_refl eq_refl eq_refl eq_refl) as [_ Hraw].
    apply Hraw. right. exists "123". reflexivity.
  - apply (Hyes (mkURL "https:" "" "" "x.com" "" "/messages/123" "" ""));
      reflexivity.
  - apply (Hno (mkURL "https:" "" "" "x.com" "" "/home" "" ""));
      reflexivity.
Defined.

Lemma shouldBlockUrl_skips_unlocked_witness :
  pipelineBlocks parseSimpleURL 0 (Some (cachedSites noGrant)) noGrant
                 "https://www.reddit.com/r/test" = true
  /\ blocked (shouldBlockUrl parseSimpleURL 0 noGrant
                             "https://www.reddit.com/r/test") = true
  /\ site (shouldBlockUrl parseSimpleURL 0 noGrant
                          "https://www.reddit.com/r/test") = Some redditSite.
Proof.
  pose proof (shouldBlockUrl_skips_unlocked parseSimpleURL 0 noGrant
                "https://www.reddit.com/r/test") as H.
  cbv zeta in H. destruct H as (_ & _ & Hpipe & _).
  assert (Hp : pipelineBlocks parseSimpleURL 0 (Some (cachedSites noGrant))
                              noGrant "https://www.reddit.com/r/test" = true)
    by (vm_compute; reflexivity).
  split; [exact Hp|].
  destruct (Hpipe Hp) as [Hb Hs]. split; [exact Hb|].
  rewrite Hs. vm_compute. reflexivity.
Defined.

(** C1, as the design document has it, fails when the first matching site
    is unlocked and a later site matches too: [shouldBlockUrl] goes on to
    the later site and blocks, the pipeline stops at the first and lets
    the navigation through. *)
Lemma sync_backend_disagrees_with_pipeline :
  blocked (shouldBlockUrl parseSimpleURL 0 firstUnlocked
                          "https://www.reddit.com/r/test") = true
  /\ site (shouldBlockUrl parseSimpleURL 0 firstUnlocked
                          "https://www.reddit.com/r/test")
     = Some redditWildcardSite
  /\ findMatchingBlockedSite parseSimpleURL
       (Some (cachedSites firstUnlocked)) "https://www.reddit.com/r/test"
     = Some redditSite
  /\ fst (isSiteUnlocked 0 (id redditSite) firstUnlocked) = true
  /\ pipelineBlocks parseSimpleURL 0 (Some (cachedSites firstUnlocked))
                    firstUnlocked "https://www.reddit.com/r/test" = false.
Proof. repeat split; vm_compute; reflexivity. Qed.

Lemma grant_then_lazy_expiry_witness :
  fst (grantAccess sampleAlarmPrefix 1000 "s1" None noGrant) = 3601000
  /\ fst (isSiteUnlocked 3600999 "s1"
            (snd (grantAccess sampleAlarmPrefix 1000 "s1" None noGrant)))
     = true
  /\ fst (isSiteUnlocked 3601000 "s1"
            (snd (grantAccess sampleAlarmPrefix 1000 "s1" None noGrant)))
     = false
  /\ fst (getUnlockState 3601000 "s1"
            (snd (grantAccess sampleAlarmPrefix 1000 "s1" None noGrant)))
     = None.
Proof.
  pose proof (grant_then_lazy_expiry sampleAlarmPrefix 1000 "s1" None noGrant)
    as H.
  cbv zeta in H. destruct H as (He & _ & _ & _ & Hbefore & Hafter).
  split; [exact He|]. rewrite He in Hbefore, Hafter.
  assert (H1 : 3600999 < 1000 + default 60 None * 60 * 1000)
    by (vm_compute; reflexivity).
  assert (H2 : 1000 + default 60 None * 60 * 1000 <= 3601000)
    by (vm_compute; discriminate).
  destruct (Hbefore 3600999 H1) as [Hu _].
  destruct (Hafter 3601000 H2) as (st2 & Hu2 & Hg2 & _).
  rewrite Hu, Hu2, Hg2. repeat split; reflexivity.
Defined.

Lemma relock_alarm_evicts_unconditionally_witness :
  Js.startsWith "wake-up" sampleAlarmPrefix = false
  /\ handleRelockAlarm parseSimpleURL sampleExtensionScheme
       sampleBrowserScheme sampleAlarmPrefix [redditTab] "wake-up"
       firstUnlocked = (None, firstUnlocked)
  /\ unlockedSites
       (snd (handleRelockAlarm parseSimpleURL sampleExtensionScheme
               sampleBrowserScheme sampleAlarmPrefix [redditTab]
               (sampleAlarmPrefix +:+ "s1") firstUnlocked)) !! "s1" = None.
Proof.
  destruct (relock_alarm_evicts_unconditionally (C := unit) parseSimpleURL
              sampleExtensionScheme sampleBrowserScheme sampleAlarmPrefix)
    as [Hevict Hother].
  split; [reflexivity|]. split.
  - apply Hother. reflexivity.
  - pose proof (Hevict [redditTab] "s1" firstUnlocked) as H.
    cbv zeta in H. destruct H as (_ & _ & Hnone & _). exact Hnone.
Defined.

(** C7, as the design document has it, fails: a first grant at time 0 for
    one minute sets a deadline at 60000; a second grant at time 30000 for
    an hour moves the deadline to 3630000; when the trigger of the first
    deadline is handled at time 60000, the second grant is gone. *)
Lemma stale_alarm_evicts_newer_grant :
  let st1 := snd (grantAccess sampleAlarmPrefix 0 "s1" (Some 1) noGrant) in
  let st2 := snd (grantAccess sampleAlarmPrefix 30000 "s1" (Some 60) st1) in
  let st3 := snd (handleRelockAlarm parseSimpleURL sampleExtensionScheme
                    sampleBrowserScheme sampleAlarmPrefix []
                    (sampleAlarmPrefix +:+ "s1") st2) in
  unlockedSites st1 !! "s1" = Some (mkUnlock "s1" 60000)
  /\ unlockedSites st2 !! "s1" = Some (mkUnlock "s1" 3630000)
  /\ fst (isSiteUnlocked 60000 "s1" st2) = true
  /\ unlockedSites st3 !! "s1" = None
  /\ fst (isSiteUnlocked 60000 "s1" st3) = false.
Proof. repeat split; vm_compute; reflexivity. Qed.

Lemma revoke_is_total_and_ignores_ledger_witness :
  Forall (fun s : BlockedSite unit => id s <> "nobody") (cachedSites noGrant)
  /\ fst (revokeAccess parseSimpleURL sampleExtensionScheme
            sampleBrowserScheme sampleAlarmPrefix [redditTab] "nobody"
            noGrant) = [].
Proof.
  destruct (revoke_is_total_and_ignores_ledger (C := unit) parseSimpleURL
              sampleExtensionScheme sampleBrowserScheme sampleAlarmPrefix)
    as (_ & Hunknown & _).
  assert (Hids : Forall (fun s : BlockedSite unit => id s <> "nobody")
                        (cachedSites noGrant)).
  { repeat constructor. discriminate. }
  split; [exact Hids|]. apply Hunknown. exact Hids.
Defined.

(** C8, as the design document has it, fails for a cached site that holds
    no grant while a tab is open on it: the tab is reported. *)
Lemma revoke_without_grant_reports_tabs :
  unlockedSites noGrant !! "s1" = None
  /\ fst (revokeAccess parseSimpleURL sampleExtensionScheme
            sampleBrowserScheme sampleAlarmPrefix [redditTab] "s1" noGrant)
     = [7].
Proof. split; vm_compute; reflexivity. Qed.

(** * Further properties of the matcher *)

Section MatcherExtras.

Variable parseURL : string -> option URL.

Local Abbreviation matchesPattern := (urlMatchesPattern parseURL).
Local Abbreviation matchesSite := (urlMatchesSiteRules parseURL).

(** The scan of the rules, whatever the flag it starts from. *)
Lemma scanRules_closed_form (url : string) (rs : list PatternRule)
  (isBlocked : bool) :
  scanRules parseURL url rs isBlocked
  = (isBlocked || anyRuleMatches parseURL url rs)
    && negb (anyAllowMatches parseURL url rs).
Proof.
  revert isBlocked. induction rs as [|r rs IH]; intros b.
  - simpl. rewrite orb_false_r, andb_true_r. reflexivity.
  - simpl. destruct (matchesPattern url (pattern r)) eqn:Hm.
    + destruct (allow r) eqn:Ha; simpl.
      * rewrite andb_false_r. reflexivity.
      * rewrite IH, orb_true_r. reflexivity.
    + rewrite IH, andb_false_r. reflexivity.
Qed.

Lemma existsb_Permutation {A} (f : A -> bool) (l l' : list A) :
  l ≡ₚ l' -> existsb f l = existsb f l'.
Proof.
  induction 1 as [|x l l' _ IH|x y l|l l' l'' _ IH1 _ IH2]; simpl.
  - reflexivity.
  - rewrite IH. reflexivity.
  - destruct (f x), (f y); reflexivity.
  - rewrite IH1. exact IH2.
Qed.

(** X1. A site blocks a URL exactly when it is enabled, some rule of it
    matches the URL and no allow rule of it matches the URL; so a
    disabled site and a site without rules block nothing. *)
Theorem site_blocks_iff {C} (site : BlockedSite C) (url : string) :
  (matchesSite url site = true <->
   enabled site = true
   /\ (exists r, In r (rules site) /\ matchesPattern url (pattern r) = true)
   /\ (forall r, In r (rules site) -> allow r = true ->
                 matchesPattern url (pattern r) = false))
  /\ (enabled site = false -> matchesSite url site = false)
  /\ (rules site = [] -> matchesSite url site = false).
Proof.
  assert (Hform : matchesSite url site
                  = enabled site
                    && (anyRuleMatches parseURL url (rules site)
                        && negb (anyAllowMatches parseURL url (rules site)))).
  { unfold urlMatchesSiteRules. destruct (enabled site); simpl; [|reflexivity].
    apply scanRules_closed_form. }
  split; [|split].
  - rewrite Hform, !andb_true_iff, negb_true_iff.
    unfold anyRuleMatches, anyAllowMatches. rewrite existsb_exists.
    split.
    + intros (Hen & Hany & Hallow). split; [exact Hen|]. split; [exact Hany|].
      intros r Hin Ha. destruct (matchesPattern url (pattern r)) eqn:Hm;
        [|reflexivity].
      assert (Hex : existsb (fun r => allow r && matchesPattern url (pattern r))
                            (rules site) = true).
      { apply existsb_exists. exists r. rewrite Ha, Hm. auto. }
      congruence.
    + intros (Hen & Hany & Hallow). split; [exact Hen|]. split; [exact Hany|].
      destruct (existsb _ (rules site)) eqn:Hex; [|reflexivity].
      apply existsb_exists in Hex as (r & Hin & Hr).
      apply andb_true_iff in Hr as [Ha Hm].
      rewrite (Hallow r Hin Ha) in Hm. discriminate.
  - intros Hen. rewrite Hform, Hen. reflexivity.
  - intros Hrules. rewrite Hform, Hrules. simpl. apply andb_false_r.
Qed.

(** X2. The order of the rules of a site does not change its answer: two
    sites that agree on [enabled] and whose rule lists are permutations of
    each other block the same URLs. *)
Theorem rule_order_is_irrelevant {C} (site1 site2 : BlockedSite C)
  (url : string) :
  enabled site1 = enabled site2 ->
  rules site1 ≡ₚ rules site2 ->
  matchesSite url site1 = matchesSite url site2.
Proof.
  intros Hen Hperm. unfold urlMatchesSiteRules. rewrite Hen.
  destruct (enabled site2); simpl; [|reflexivity].
  rewrite !scanRules_closed_form. unfold anyRuleMatches, anyAllowMatches.
  rewrite (existsb_Permutation _ _ _ Hperm).
  rewrite (existsb_Permutation
             (fun r => allow r && matchesPattern url (pattern r)) _ _ Hperm).
  reflexivity.
Qed.

(** The answer of the matcher, split into its host half and its path
    half. *)
Lemma matcher_eval (url pattern : string) (o : URL) :
  parseURL url = Some o ->
  let h := Js.toLowerCase (hostname o) in
  matchesPattern url pattern
  = if Js.includes (normalizePattern pattern) "/" then
      hostMatches (hostPart pattern) (Js.stripWww h) h
      && pathMatches (pathPart pattern) (Js.toLowerCase (pathname o))
    else hostMatches (normalizePattern pattern) (Js.stripWww h) h.
Proof.
  intros Hparse h. subst h. unfold urlMatchesPattern, urlMatchesPattern_try.
  rewrite Hparse. cbn [mbind option_bind].
  rewrite !toLowerCase_idem.
  destruct (Js.includes (normalizePattern pattern) "/").
  - fold (hostPart pattern) (pathPart pattern). rewrite pathPart_lower.
    destruct (hostMatches _ _ _); [|reflexivity]. cbn [negb andb].
    unfold pathMatches. destruct (Js.includes (pathPart pattern) "*");
      reflexivity.
  - unfold hostMatches. rewrite !toLowerCase_idem.
    destruct (Js.startsWith (normalizePattern pattern) "*."); [reflexivity|].
    destruct (Js.includes (normalizePattern pattern) "*"); reflexivity.
Qed.

(** X3. Matching ignores letter case on both sides: two URLs whose host
    names and paths differ in case only, and two patterns that differ in
    case only, give the same answer. *)
Theorem matching_ignores_case (url1 url2 pattern1 pattern2 : string)
  (o1 o2 : URL) :
  parseURL url1 = Some o1 ->
  parseURL url2 = Some o2 ->
  Js.toLowerCase (hostname o1) = Js.toLowerCase (hostname o2) ->
  Js.toLowerCase (pathname o1) = Js.toLowerCase (pathname o2) ->
  Js.toLowerCase pattern1 = Js.toLowerCase pattern2 ->
  matchesPattern url1 pattern1 = matchesPattern url2 pattern2.
Proof.
  intros H1 H2 Hhost Hpath Hpat.
  rewrite (matcher_eval url1 pattern1 o1 H1), (matcher_eval url2 pattern2 o2 H2).
  cbv zeta. unfold hostPart, pathPart, normalizePattern.
  rewrite Hhost, Hpath, Hpat. reflexivity.
Qed.

End MatcherExtras.

Section HostAndPathExtras.

Variable parseURL : string -> option URL.

Local Abbreviation matchesPattern := (urlMatchesPattern parseURL).

Lemma stripWww_www (s : string) : Js.stripWww ("www." +:+ s) = s.
Proof.
  unfold Js.stripWww. rewrite startsWith_app.
  apply (sliceFrom_app "www." s).
Qed.

Lemma no_star_no_star_dot (s : string) :
  Js.includes s "*" = false -> Js.startsWith s "*." = false.
Proof.
  destruct s as [|c s]; [reflexivity|].
  change (Js.includes (String c s) "*")
    with (Ascii.eqb c "*" || Js.includes s "*").
  change (Js.startsWith (String c s) "*.")
    with (Ascii.eqb "*" c && Js.startsWith s ".").
  rewrite (Ascii.eqb_sym "*" c).
  destruct (Ascii.eqb c "*"); [discriminate | reflexivity].
Qed.

(** The host test for a pattern without a star. *)
Lemma hostMatches_exact (hostPattern h : string) :
  Js.includes hostPattern "*" = false ->
  Js.toLowerCase h = h ->
  (hostMatches hostPattern (Js.stripWww h) h = true <->
   Js.stripWww h = hostPattern \/ h = hostPattern).
Proof.
  intros Hstar Hlow. unfold hostMatches.
  rewrite (no_star_no_star_dot _ Hstar), Hstar, Hlow.
  rewrite !orb_true_iff, !eqb_true_iff. split.
  - intros [[H | H] | H]; [left; exact H | right; exact H | left].
    rewrite H. apply stripWww_www.
  - intros [H | H]; auto.
Qed.

(** X4. A pattern without a slash and without a star matches a URL exactly
    when the pattern, in normal form, is the lower-cased host name or the
    lower-cased host name with one leading "www." removed; the path of the
    URL plays no part. *)
Theorem exact_host_pattern (url pattern : string) (o : URL) :
  parseURL url = Some o ->
  Js.includes (normalizePattern pattern) "/" = false ->
  Js.includes (normalizePattern pattern) "*" = false ->
  let h := Js.toLowerCase (hostname o) in
  matchesPattern url pattern = true <->
  Js.stripWww h = normalizePattern pattern \/ h = normalizePattern pattern.
Proof.
  intros Hparse Hslash Hstar h.
  rewrite (matcher_eval parseURL url pattern o Hparse). cbv zeta.
  rewrite Hslash. apply hostMatches_exact; [exact Hstar|].
  apply toLowerCase_idem.
Qed.

(** Putting "www." in front of a host that does not start with it keeps a
    host match. *)
Lemma hostMatches_www (hostPattern h : string) :
  Js.toLowerCase h = h ->
  Js.stripWww h = h ->
  hostMatches hostPattern h h = true ->
  hostMatches hostPattern h ("www." +:+ h) = true.
Proof.
  intros Hlow Hbare. unfold hostMatches.
  rewrite toLowerCase_app, Hlow.
  change (Js.toLowerCase "www.") with "www.".
  destruct (Js.startsWith hostPattern "*."); [auto|].
  destruct (Js.includes hostPattern "*").
  - rewrite !orb_true_iff. intros [H | H]; left; exact H.
  - rewrite !orb_true_iff, !eqb_true_iff.
    intros [[H | H] | H]; [left; left; exact H | left; left; exact H|].
    left. left. rewrite <- Hbare, H. apply stripWww_www.
Qed.

(** X5. Adding "www." in front of the host never releases a URL: when a
    URL whose host does not start with "www." matches a pattern, the URL
    with "www." put in front of the host and the same path matches it
    too. *)
Theorem www_host_stays_matched (url1 url2 pattern : string) (o1 o2 : URL) :
  parseURL url1 = Some o1 ->
  parseURL url2 = Some o2 ->
  Js.stripWww (Js.toLowerCase (hostname o1)) = Js.toLowerCase (hostname o1) ->
  hostname o2 = "www." +:+ hostname o1 ->
  pathname o2 = pathname o1 ->
  matchesPattern url1 pattern = true ->
  matchesPattern url2 pattern = true.
Proof.
  intros H1 H2 Hbare Hhost Hpath.
  rewrite (matcher_eval parseURL url1 pattern o1 H1),
          (matcher_eval parseURL url2 pattern o2 H2).
  cbv zeta. rewrite Hhost, Hpath, toLowerCase_app.
  change (Js.toLowerCase "www.") with "www.".
  rewrite stripWww_www, Hbare.
  set (h := Js.toLowerCase (hostname o1)) in *.
  assert (Hlow : Js.toLowerCase h = h) by apply toLowerCase_idem.
  destruct (Js.includes (normalizePattern pattern) "/").
  - rewrite !andb_true_iff. intros [Hh Hp]. split; [|exact Hp].
    apply hostMatches_www; assumption.
  - apply hostMatches_www; assumption.
Qed.

(** The path test for a path pattern without a star. *)
Lemma pathMatches_spec (pathPattern path : string) :
  Js.includes pathPattern "*" = false ->
  let q := Js.stripTrailingSlash pathPattern in
  pathMatches pathPattern path = true <->
  Js.stripTrailingSlash path = q \/ exists rest, path = q +:+ "/" +:+ rest.
Proof.
  intros Hstar q. unfold pathMatches. rewrite Hstar. fold q.
  rewrite <- subpath_clean_or_raw.
  rewrite orb_true_iff, eqb_true_iff, startsWith_spec.
  split; (intros [H | [rest H]]; [left; exact H | right; exists rest]).
  - rewrite H, app_assoc_str. reflexivity.
  - rewrite H, app_assoc_str. reflexivity.
Qed.

Lemma pathMatches_below (pathPattern path rest : string) :
  Js.includes pathPattern "*" = false ->
  pathMatches pathPattern path = true ->
  pathMatches pathPattern (path +:+ "/" +:+ rest) = true.
Proof.
  intros Hstar Hm. apply (pathMatches_spec _ _ Hstar).
  apply (pathMatches_spec _ _ Hstar) in Hm. right.
  destruct Hm as [Hclean | [r Hr]].
  - destruct (stripTrailingSlash_cases path) as [[Hsame _] | Hcut].
    + exists rest. rewrite <- Hclean, Hsame. reflexivity.
    + exists ("/" +:+ rest). rewrite Hcut at 1. rewrite Hclean.
      rewrite app_assoc_str. reflexivity.
  - exists (r +:+ "/" +:+ rest). rewrite Hr, !app_assoc_str. reflexivity.
Qed.

(** X6. A pattern with a path and no star in it covers everything below
    what it matches: when it matches a URL, it matches every URL on the
    same host whose path continues that path after a slash. *)
Theorem path_pattern_covers_subpaths (url1 url2 pattern rest : string)
  (o1 o2 : URL) :
  parseURL url1 = Some o1 ->
  parseURL url2 = Some o2 ->
  hostname o2 = hostname o1 ->
  pathname o2 = pathname o1 +:+ "/" +:+ rest ->
  Js.includes (normalizePattern pattern) "/" = true ->
  Js.includes (pathPart pattern) "*" = false ->
  matchesPattern url1 pattern = true ->
  matchesPattern url2 pattern = true.
Proof.
  intros H1 H2 Hhost Hpath Hslash Hstar.
  rewrite (matcher_eval parseURL url1 pattern o1 H1),
          (matcher_eval parseURL url2 pattern o2 H2).
  cbv zeta. rewrite Hslash, Hhost, Hpath, !andb_true_iff.
  intros [Hh Hp]. split; [exact Hh|].
  rewrite !toLowerCase_app. change (Js.toLowerCase "/") with "/".
  apply pathMatches_below; assumption.
Qed.

End HostAndPathExtras.

(** * The regular expressions of the wildcard patterns *)

Section RegexExtras.

(** X7. The escaping of lines 120-122 disarms every regular expression
    syntax character of a pattern: after the two [replace] calls the text
    reads as one literal per character of the pattern that is not a star
    and one dot-star per star, in the order of the pattern. *)
Theorem escaped_pattern_reads_as_glob (p : string) :
  readRegex (starToDotStar (escapeRegex p)) = Some (Js.compile p).
Proof.
  induction p as [|c p IH]; [reflexivity|].
  destruct c as [[] [] [] [] [] [] [] []];
    cbn [escapeRegex isEscaped starToDotStar Js.compile Ascii.eqb
         Bool.eqb readRegex isSyntaxChar];
    rewrite IH; reflexivity.
Qed.

Lemma regexTest_star (re : list Js.atom) (s : string) :
  Js.regexTest (Js.AnyStar :: re) s = starLoop (Js.regexTest re) s.
Proof. reflexivity. Qed.

Lemma starLoop_spec (k : string -> bool) (s : string) :
  starLoop k s = true <->
  exists m t, s = m +:+ t /\ noLineBreak m = true /\ k t = true.
Proof.
  induction s as [|d s IH].
  - simpl. rewrite orb_false_r. split.
    + intros H. exists "", "". auto.
    + intros (m & t & Hs & _ & Hk). destruct m; [|discriminate].
      rewrite app_nil in Hs. subst t. exact Hk.
  - change (starLoop k (String d s))
      with (k (String d s)
            || (if Js.isLineTerminator d then false else starLoop k s)).
    rewrite orb_true_iff. split.
    + intros [Hk | Hrest].
      * exists "", (String d s). auto.
      * destruct (Js.isLineTerminator d) eqn:Hd; [discriminate|].
        apply IH in Hrest as (m & t & -> & Hm & Hk).
        exists (String d m), t. split; [reflexivity|]. split; [|exact Hk].
        simpl. rewrite Hd. exact Hm.
    + intros (m & t & Hs & Hm & Hk). destruct m as [|x m].
      * rewrite app_nil in Hs. subst t. left. exact Hk.
      * rewrite app_cons in Hs. injection Hs as -> ->. right.
        simpl in Hm. apply andb_true_iff in Hm as [Hx Hm].
        apply negb_true_iff in Hx. rewrite Hx. apply IH.
        exists m, t. auto.
Qed.

Lemma regexTest_iff_atoms (re : list Js.atom) (s : string) :
  Js.regexTest re s = true <-> AtomsMatch re s.
Proof.
  revert s. induction re as [|a re IH]; intros s.
  - destruct s; simpl; split; try discriminate.
    + intros _. constructor.
    + reflexivity.
    + intros H. inversion H.
  - destruct a as [c|].
    + destruct s as [|d s]; simpl.
      * split; [discriminate | intros H; inversion H].
      * rewrite andb_true_iff, Ascii.eqb_eq, IH. split.
        -- intros [Hc Hs]. constructor; assumption.
        -- intros H. inversion H; subst. auto.
    + rewrite regexTest_star, starLoop_spec. split.
      * intros (m & t & -> & Hm & Ht). constructor; [exact Hm|].
        apply IH, Ht.
      * intros H. inversion H as [| |re' m t Hm Ht]; subst.
        exists m, t. split; [reflexivity|]. split; [exact Hm|].
        apply IH, Ht.
Qed.

End RegexExtras.

Section GlobExtras.

Variable parseURL : string -> option URL.

Lemma lower_canon (c : ascii) :
  Js.lowerChar (Js.canonChar c) = Js.lowerChar c.
Proof. destruct c as [[] [] [] [] [] [] [] []]; reflexivity. Qed.

Lemma canon_eq_lower (c d : ascii) :
  Js.lowerChar c = c -> Js.lowerChar d = d ->
  Js.canonChar c = Js.canonChar d -> c = d.
Proof.
  intros Hc Hd H. rewrite <- Hc, <- Hd, <- (lower_canon c), <- (lower_canon d).
  rewrite H. reflexivity.
Qed.

Lemma compile_app (a b : string) :
  Js.compile (a +:+ b) = Js.compile a ++ Js.compile b.
Proof.
  induction a as [|x a IH]; [reflexivity|].
  rewrite app_cons. simpl. rewrite IH. reflexivity.
Qed.

Lemma isLower_app (a b : string) : isLower (a +:+ b) -> isLower a.
Proof.
  induction a as [|x a IH]; [intros _; exact I|].
  rewrite app_cons. intros [Hx Hab]. split; [exact Hx | apply IH, Hab].
Qed.

Lemma noLineBreak_star (t : string) :
  AtomsMatch [Js.AnyStar] t <-> noLineBreak t = true.
Proof.
  split.
  - intros H. inversion H as [| |re m s Hm Hs]; subst.
    inversion Hs; subst. rewrite app_nil_r. exact Hm.
  - intros H. rewrite <- (app_nil_r t). constructor; [exact H | constructor].
Qed.

(** A match of two expressions in a row cuts the string in two. *)
Lemma AtomsMatch_app (r1 r2 : list Js.atom) (s : string) :
  AtomsMatch (r1 ++ r2) s <->
  exists s1 s2, s = s1 +:+ s2 /\ AtomsMatch r1 s1 /\ AtomsMatch r2 s2.
Proof.
  revert s. induction r1 as [|a r1 IH]; intros s.
  - simpl. split.
    + intros H. exists "", s. repeat split; [constructor | exact H].
    + intros (s1 & s2 & -> & H1 & H2). inversion H1; subst. exact H2.
  - simpl. split.
    + intros H. inversion H as [|c d re t Hcd Ht|re m t Hm Ht]; subst.
      * apply IH in Ht as (s1 & s2 & -> & H1 & H2).
        exists (String d s1), s2. repeat split; [|exact H2].
        constructor; assumption.
      * apply IH in Ht as (s1 & s2 & -> & H1 & H2).
        exists (m +:+ s1), s2. rewrite app_assoc_str.
        repeat split; [|exact H2]. constructor; assumption.
    + intros (s1 & s2 & -> & H1 & H2).
      inversion H1 as [|c d re t Hcd Ht|re m t Hm Ht]; subst.
      * rewrite app_cons. constructor; [exact Hcd|].
        apply IH. exists t, s2. auto.
      * rewrite app_assoc_str. constructor; [exact Hm|].
        apply IH. exists t, s2. auto.
Qed.

(** X8. The test of a compiled pattern succeeds exactly on the strings
    that match it atom by atom: a literal takes one character equal to it
    up to letter case, a dot-star takes any run of characters without a
    line terminator, and nothing may be left over.  So a pattern with a
    star matches a string exactly when the string splits into a part that
    matches what stands before the star, a run without line terminators,
    and a part that matches what stands after it. *)
Theorem regexTest_matches_atoms (p a b s : string) :
  (Js.regexTest (Js.compile p) s = true <-> AtomsMatch (Js.compile p) s)
  /\ (Js.regexTest (Js.compile (a +:+ "*" +:+ b)) s = true <->
      exists s1 m s2,
        s = s1 +:+ m +:+ s2
        /\ Js.regexTest (Js.compile a) s1 = true
        /\ noLineBreak m = true
        /\ Js.regexTest (Js.compile b) s2 = true).
Proof.
  split; [apply regexTest_iff_atoms|].
  rewrite regexTest_iff_atoms, compile_app, AtomsMatch_app.
  change (Js.compile ("*" +:+ b)) with (Js.AnyStar :: Js.compile b).
  split.
  - intros (s1 & t & -> & H1 & Ht).
    inversion Ht as [| |re m s2 Hm H2]; subst.
    exists s1, m, s2. rewrite !regexTest_iff_atoms. auto.
  - intros (s1 & m & s2 & -> & H1 & Hm & H2).
    rewrite regexTest_iff_atoms in H1, H2.
    exists s1, (m +:+ s2). repeat split; [exact H1|].
    constructor; assumption.
Qed.

(** A run of literals in front of an expression takes exactly its own
    text, when pattern and string are in lower case. *)
Lemma literal_prefix (q : string) (re : list Js.atom) (s : string) :
  Js.includes q "*" = false -> isLower q -> isLower s ->
  (AtomsMatch (Js.compile q ++ re) s <->
   exists t, s = q +:+ t /\ AtomsMatch re t).
Proof.
  revert s. induction q as [|c q IH]; intros s Hstar Hq Hs.
  - simpl. split; [intros H; exists s; auto | intros (t & -> & H); exact H].
  - change (Js.includes (String c q) "*")
      with (Ascii.eqb c "*" || Js.includes q "*") in Hstar.
    apply orb_false_iff in Hstar as [Hc Hstar]. destruct Hq as [Hlc Hq].
    change (Js.compile (String c q))
      with ((if Ascii.eqb c "*" then Js.AnyStar else Js.Lit c)
            :: Js.compile q).
    rewrite Hc. simpl. split.
    + intros H. inversion H as [|c' d re' s' Hcd Hrest|]; subst.
      destruct Hs as [Hld Hs'].
      apply (IH s' Hstar Hq Hs') in Hrest as (t & -> & Ht).
      exists t. rewrite app_cons.
      rewrite (canon_eq_lower c d Hlc Hld Hcd). auto.
    + intros (t & -> & Ht). rewrite app_cons. rewrite app_cons in Hs.
      destruct Hs as [_ Hs']. constructor; [reflexivity|].
      apply (IH _ Hstar Hq Hs'). exists t. auto.
Qed.

(** X9. A pattern with a path that ends in its only star covers the paths
    that start with the text before the star: for a URL whose host matches
    the host part, the match succeeds exactly when the lower-cased path is
    that text followed by any characters, line terminators excluded. *)
Theorem trailing_star_path_pattern (url pattern q : string) (o : URL) :
  parseURL url = Some o ->
  Js.includes (normalizePattern pattern) "/" = true ->
  pathPart pattern = q +:+ "*" ->
  Js.includes q "*" = false ->
  hostMatches (hostPart pattern)
              (Js.stripWww (Js.toLowerCase (hostname o)))
              (Js.toLowerCase (hostname o)) = true ->
  (urlMatchesPattern parseURL url pattern = true <->
   exists t, Js.toLowerCase (pathname o) = q +:+ t /\ noLineBreak t = true).
Proof.
  intros Hparse Hslash Hpath Hstar Hhost.
  rewrite (matcher_eval parseURL url pattern o Hparse). cbv zeta.
  rewrite Hslash, Hhost. cbn [andb]. unfold pathMatches.
  assert (Hinc : Js.includes (pathPart pattern) "*" = true).
  { rewrite Hpath, includes_app. apply orb_true_r. }
  rewrite Hinc, Hpath, regexTest_iff_atoms, compile_app.
  assert (Hq : isLower q).
  { apply (isLower_app q "*"). rewrite <- Hpath.
    apply isLower_sliceFrom, isLower_normalizePattern. }
  rewrite (literal_prefix q _ _ Hstar Hq (isLower_toLowerCase _)).
  split; intros (t & Ht & Hm); exists t; (split; [exact Ht|]);
    apply noLineBreak_star; exact Hm.
Qed.

End GlobExtras.

(** * Further properties of the unlock ledger *)

Section LedgerExtras.

Context {C : Type}.
Variable parseURL : string -> option URL.
Variables extensionScheme browserScheme : string.
Variable ALARM_PREFIX : string.

Local Abbreviation matchesSite := (urlMatchesSiteRules parseURL).
Local Abbreviation decide_sync := (shouldBlockUrl parseURL).
Local Abbreviation grant := (grantAccess ALARM_PREFIX).
Local Abbreviation revoke :=
  (revokeAccess parseURL extensionScheme browserScheme ALARM_PREFIX).
Local Abbreviation onAlarm :=
  (handleRelockAlarm parseURL extensionScheme browserScheme ALARM_PREFIX).
Local Abbreviation Ok := (LedgerOk (C := C) ALARM_PREFIX).

(** Two sites never share an alarm name. *)
Lemma alarm_name_inj (a b : string) :
  ALARM_PREFIX +:+ a = ALARM_PREFIX +:+ b -> a = b.
Proof.
  induction ALARM_PREFIX as [|c p IH]; [auto|].
  rewrite !app_cons. intros [= H]. apply IH, H.
Qed.

Lemma grant_keeps_ok (now : Z) (k : string) (d : option Z) (st : Backend C) :
  Ok st -> Ok (snd (grant now k d st)).
Proof.
  intros Hok k' g. unfold grantAccess. cbn [snd unlockedSites alarms].
  destruct (decide (k = k')) as [<- | Hne].
  - rewrite !lookup_insert_eq. intros [= <-]. auto.
  - rewrite lookup_insert_ne by exact Hne. intros Hg.
    destruct (Hok k' g Hg) as [Hid Hal]. split; [exact Hid|].
    rewrite lookup_insert_ne; [exact Hal|].
    intros Heq. apply Hne, alarm_name_inj, Heq.
Qed.

Lemma revoke_keeps_ok (tabs : list Tab) (k : string) (st : Backend C) :
  Ok st -> Ok (snd (revoke tabs k st)).
Proof.
  intros Hok k' g. unfold revokeAccess. cbn [snd unlockedSites alarms].
  destruct (decide (k = k')) as [<- | Hne].
  - rewrite lookup_delete_eq. discriminate.
  - rewrite lookup_delete_ne by exact Hne. intros Hg.
    destruct (Hok k' g Hg) as [Hid Hal]. split; [exact Hid|].
    rewrite lookup_delete_ne; [exact Hal|].
    intros Heq. apply Hne, alarm_name_inj, Heq.
Qed.

Lemma delete_entry_keeps_ok (k : string) (st : Backend C) :
  Ok st ->
  Ok (mkBackend (cachedSites st) (delete k (unlockedSites st)) (alarms st)).
Proof.
  intros Hok k' g. cbn [unlockedSites alarms].
  destruct (decide (k = k')) as [<- | Hne].
  - rewrite lookup_delete_eq. discriminate.
  - rewrite lookup_delete_ne by exact Hne. apply Hok.
Qed.

(** X10. The ledger stays well formed: starting from an empty ledger,
    after any grant, revocation, query, alarm or cache refresh every
    stored grant is filed under its own site id and the alarm named after
    that site is set to the deadline of the grant, so no grant is left
    without the alarm that ends it. *)
Theorem ledger_stays_well_formed :
  (forall sites, Ok (mkBackend sites ∅ ∅))
  /\ (forall now k d st, Ok st -> Ok (snd (grant now k d st)))
  /\ (forall tabs k st, Ok st -> Ok (snd (revoke tabs k st)))
  /\ (forall now k st, Ok st -> Ok (snd (isSiteUnlocked now k st)))
  /\ (forall now k st, Ok st -> Ok (snd (getUnlockState now k st)))
  /\ (forall tabs name st, Ok st -> Ok (snd (onAlarm tabs name st)))
  /\ (forall stored st, Ok st -> Ok (refreshCache stored st)).
Proof.
  split; [|split; [|split; [|split; [|split; [|split]]]]].
  - intros sites k g. cbn [unlockedSites]. rewrite lookup_empty. discriminate.
  - apply grant_keeps_ok.
  - apply revoke_keeps_ok.
  - intros now k st Hok. unfold isSiteUnlocked.
    destruct (unlockedSites st !! k) as [g|]; [|exact Hok].
    destruct (expiresAt g <=? now); [|exact Hok].
    apply delete_entry_keeps_ok, Hok.
  - intros now k st Hok. unfold getUnlockState.
    destruct (unlockedSites st !! k) as [g|]; [|exact Hok].
    destruct (expiresAt g <=? now); [|exact Hok].
    apply delete_entry_keeps_ok, Hok.
  - intros tabs name st Hok. unfold handleRelockAlarm.
    destruct (Js.startsWith name ALARM_PREFIX); [|exact Hok].
    cbn [negb]. apply (revoke_keeps_ok tabs _ st Hok).
  - intros stored st Hok. exact Hok.
Qed.

(** X11. Revoking undoes a grant: when a site has neither a grant nor an
    alarm, granting access and then revoking it gives back the state from
    before the grant. *)
Theorem revoke_undoes_grant (now : Z) (k : string) (d : option Z)
  (tabs : list Tab) (st : Backend C) :
  unlockedSites st !! k = None ->
  alarms st !! (ALARM_PREFIX +:+ k) = None ->
  snd (revoke tabs k (snd (grant now k d st))) = st.
Proof.
  intros Hledger Halarm. unfold revokeAccess, grantAccess.
  cbn [snd cachedSites unlockedSites alarms].
  rewrite (delete_insert_id _ _ _ Hledger), (delete_insert_id _ _ _ Halarm).
  destruct st; reflexivity.
Qed.

(** X12. The two queries of the ledger agree and only ever drop the entry
    they ask about: [isSiteUnlocked] answers [true] exactly when a grant
    with a deadline after [now] is stored, which is when [getUnlockState]
    returns that grant; both leave the same state, in which the other
    sites, the alarms and the cache are as before, and asking again at the
    same time gives the same answer and changes nothing. *)
Theorem ledger_queries_agree (now : Z) (k : string) (st : Backend C) :
  let st' := snd (isSiteUnlocked now k st) in
  (fst (isSiteUnlocked now k st) = true <->
   exists g, unlockedSites st !! k = Some g /\ now < expiresAt g)
  /\ (forall g, fst (getUnlockState now k st) = Some g <->
                unlockedSites st !! k = Some g /\ now < expiresAt g)
  /\ snd (getUnlockState now k st) = st'
  /\ (forall k', k' <> k -> unlockedSites st' !! k' = unlockedSites st !! k')
  /\ alarms st' = alarms st
  /\ cachedSites st' = cachedSites st
  /\ isSiteUnlocked now k st' = (fst (isSiteUnlocked now k st), st')
  /\ getUnlockState now k st' = (fst (getUnlockState now k st), st').
Proof.
  intros st'. subst st'. unfold isSiteUnlocked, getUnlockState.
  destruct (unlockedSites st !! k) as [g|] eqn:Hg.
  - destruct (Z.leb_spec (expiresAt g) now) as [Hle | Hlt];
      cbn [fst snd unlockedSites alarms cachedSites].
    + rewrite lookup_delete_eq.
      split; [split; [discriminate | intros (g' & [= <-] & ?); lia]|].
      split; [intros g0; split; [discriminate | intros [[= <-] ?]; lia]|].
      split; [reflexivity|].
      split; [intros k' Hne; apply lookup_delete_ne; congruence|].
      repeat (split; [reflexivity|]). reflexivity.
    + rewrite Hg.
      destruct (Z.leb_spec (expiresAt g) now) as [Hle | _]; [lia|].
      split; [split; [intros _; exists g; auto | reflexivity]|].
      split; [intros g0; split;
              [intros [= <-]; auto | intros [H _]; exact H]|].
      repeat (split; [reflexivity|]). reflexivity.
  - cbn [fst snd]. rewrite Hg.
    split; [split; [discriminate | intros (g & ? & _); discriminate]|].
    split; [intros g0; split; [discriminate | intros [? _]; discriminate]|].
    repeat (split; [reflexivity|]). reflexivity.
Qed.

(** X13. Grants and revocations of one site leave the answer for every
    other site alone. *)
Theorem ledger_sites_are_independent (now t : Z) (a b : string)
  (d : option Z) (tabs : list Tab) (st : Backend C) :
  a <> b ->
  fst (isSiteUnlocked t b (snd (grant now a d st)))
  = fst (isSiteUnlocked t b st)
  /\ fst (isSiteUnlocked t b (snd (revoke tabs a st)))
     = fst (isSiteUnlocked t b st).
Proof.
  intros Hne. unfold isSiteUnlocked, grantAccess, revokeAccess.
  cbn [snd unlockedSites].
  rewrite lookup_insert_ne, lookup_delete_ne by exact Hne.
  destruct (unlockedSites st !! b) as [g|]; [|auto].
  destruct (expiresAt g <=? t); auto.
Qed.

(** X14. Once a grant has run out it stays run out: when
    [isSiteUnlocked] answers [false] at some time, it answers [false] at
    every later time, on the state before and on the state after the
    query. *)
Theorem expired_stays_expired (t t' : Z) (k : string) (st : Backend C) :
  t <= t' ->
  fst (isSiteUnlocked t k st) = false ->
  fst (isSiteUnlocked t' k st) = false
  /\ fst (isSiteUnlocked t' k (snd (isSiteUnlocked t k st))) = false.
Proof.
  intros Hle. unfold isSiteUnlocked.
  destruct (unlockedSites st !! k) as [g|] eqn:Hg.
  - destruct (Z.leb_spec (expiresAt g) t) as [He | He]; [|discriminate].
    intros _. cbn [fst snd unlockedSites]. rewrite lookup_delete_eq.
    destruct (Z.leb_spec (expiresAt g) t') as [_ | He']; [auto | lia].
  - intros _. cbn [fst snd]. rewrite Hg. auto.
Qed.

End LedgerExtras.

Section UnlockExtras.

Context {C : Type}.
Variable parseURL : string -> option URL.
Variables extensionScheme browserScheme : string.
Variable ALARM_PREFIX : string.

Local Abbreviation matchesSite := (urlMatchesSiteRules parseURL).
Local Abbreviation decide_sync := (shouldBlockUrl parseURL).
Local Abbreviation grant := (grantAccess ALARM_PREFIX).
Local Abbreviation revoke :=
  (revokeAccess parseURL extensionScheme browserScheme ALARM_PREFIX).

(** A cached site that matches and holds no live grant is enough for
    [shouldBlockUrl] to block. *)
Lemma shouldBlockUrl_blocks (now : Z) (st : Backend C) (url : string)
  (s : BlockedSite C) :
  In s (cachedSites st) ->
  blocksNow parseURL now (unlockedSites st) url s = true ->
  blocked (decide_sync now st url) = true.
Proof.
  intros Hin Hs. unfold shouldBlockUrl. rewrite shouldBlockUrl_loop_find.
  destruct (List.find _ (cachedSites st)) as [s'|] eqn:Hfind; [reflexivity|].
  rewrite (List.find_none _ _ Hfind s Hin) in Hs. discriminate.
Qed.

(** The site that [shouldBlockUrl] returns passed the test of the loop. *)
Lemma shouldBlockUrl_site (now : Z) (st : Backend C) (url : string)
  (s : BlockedSite C) :
  site (decide_sync now st url) = Some s ->
  In s (cachedSites st)
  /\ blocksNow parseURL now (unlockedSites st) url s = true.
Proof.
  unfold shouldBlockUrl. rewrite shouldBlockUrl_loop_find.
  destruct (List.find _ (cachedSites st)) as [s'|] eqn:Hfind;
    [|discriminate].
  intros [= <-]. apply (List.find_some _ _ Hfind).
Qed.

(** X15. A grant suspends the blocking of its site until the deadline and
    no longer: before the deadline [shouldBlockUrl] never returns a site
    with the granted id; from the deadline on, a URL that a cached site
    with that id matches is blocked again. *)
Theorem grant_suspends_blocking_until_deadline (now t : Z) (k : string)
  (d : option Z) (st : Backend C) (url : string) :
  let e := fst (grant now k d st) in
  let st1 := snd (grant now k d st) in
  (t < e ->
   forall s, site (decide_sync t st1 url) = Some s -> id s <> k)
  /\ (e <= t ->
      forall s, In s (cachedSites st) -> id s = k ->
                matchesSite url s = true ->
                blocked (decide_sync t st1 url) = true).
Proof.
  intros e st1. subst e st1. unfold grantAccess. cbn [fst snd].
  set (e := now + default 60 d * 60 * 1000). split.
  - intros Ht s Hsite Hid. apply shouldBlockUrl_site in Hsite as [_ Hs].
    unfold blocksNow, liveGrant in Hs. cbn [unlockedSites] in Hs.
    rewrite Hid, lookup_insert_eq in Hs. cbn [expiresAt] in Hs.
    destruct (Z.gtb_spec e t) as [_ | Hle]; [|lia].
    rewrite andb_false_r in Hs. discriminate.
  - intros Ht s Hin Hid Hm. apply (shouldBlockUrl_blocks _ _ _ s).
    + exact Hin.
    + unfold blocksNow, liveGrant. cbn [unlockedSites].
      rewrite Hm, Hid, lookup_insert_eq. cbn [expiresAt].
      destruct (Z.gtb_spec e t) as [Hgt | _]; [lia | reflexivity].
Qed.

(** X16. The tabs that a revocation reports are tabs the backend now
    blocks: each reported id belongs to an open tab whose URL
    [shouldBlockUrl] blocks in the state after the revocation, at any
    time. *)
Theorem revoked_tabs_are_blocked (tabs : list Tab) (k : string)
  (st : Backend C) (now i : Z) :
  In i (fst (revoke tabs k st)) ->
  exists tab u,
    In tab tabs /\ tab_id tab = Some i /\ tab_url tab = Some u
    /\ blocked (decide_sync now (snd (revoke tabs k st)) u) = true.
Proof.
  unfold revokeAccess, findTabsOnBlockedSite. cbn [fst snd cachedSites].
  destruct (List.find _ (cachedSites st)) as [s|] eqn:Hfind; [|intros []].
  apply List.find_some in Hfind as [Hin Hid]. apply String.eqb_eq in Hid.
  intros Hi.
  apply (matchingTabs_In parseURL extensionScheme browserScheme) in Hi
    as (tab & u & Htab & Htid & _ & Hurl & _ & _ & Hm).
  exists tab, u. split; [exact Htab|]. split; [exact Htid|].
  split; [exact Hurl|].
  apply (shouldBlockUrl_blocks _ _ _ s); [exact Hin|].
  unfold blocksNow, liveGrant. cbn [unlockedSites].
  rewrite Hm, Hid, lookup_delete_eq. reflexivity.
Qed.

End UnlockExtras.

(** * The blocked page and the request listener *)

Section EncodingExtras.

Lemma app_inv_head_str (p a b : string) : p +:+ a = p +:+ b -> a = b.
Proof.
  induction p as [|c p IH]; [auto|].
  rewrite !app_cons. intros [= H]. apply IH, H.
Qed.

Lemma decode_encodeChar (c : ascii) (r : string) :
  decodeComponent (encodeChar c +:+ r) = String c <$> decodeComponent r.
Proof. destruct c as [[] [] [] [] [] [] [] []]; reflexivity. Qed.

Lemma decode_encode (s : string) :
  decodeComponent (encodeURIComponent s) = Some s.
Proof.
  induction s as [|c s IH]; [reflexivity|].
  simpl. rewrite decode_encodeChar, IH. reflexivity.
Qed.

Lemma encodeURIComponent_inj (s1 s2 : string) :
  encodeURIComponent s1 = encodeURIComponent s2 -> s1 = s2.
Proof.
  intros H. apply (f_equal decodeComponent) in H.
  rewrite !decode_encode in H. congruence.
Qed.

Lemma allSafe_app (a b : string) :
  allSafe (a +:+ b) = allSafe a && allSafe b.
Proof.
  induction a as [|x a IH]; [reflexivity|].
  rewrite app_cons. simpl. rewrite IH, andb_assoc. reflexivity.
Qed.

Lemma allSafe_encodeChar (c : ascii) : allSafe (encodeChar c) = true.
Proof. destruct c as [[] [] [] [] [] [] [] []]; reflexivity. Qed.

Lemma allSafe_encode (s : string) : allSafe (encodeURIComponent s) = true.
Proof.
  induction s as [|c s IH]; [reflexivity|].
  simpl. rewrite allSafe_app, allSafe_encodeChar, IH. reflexivity.
Qed.

Lemma allSafe_includes (s : string) (x : ascii) :
  allSafe s = true -> Js.includes s x = true ->
  isUnreserved x = true \/ x = "%"%char.
Proof.
  induction s as [|a s IH]; [discriminate|].
  simpl. rewrite andb_true_iff, !orb_true_iff. intros [Ha Hs] [Hx | Hx].
  - apply Ascii.eqb_eq in Hx. subst x. destruct Ha as [Ha | Ha]; [auto|].
    right. apply Ascii.eqb_eq, Ha.
  - apply IH; assumption.
Qed.

(** The first ampersand of a text cuts it in one way only. *)
Lemma cut_at_ampersand (a b x y : string) :
  Js.includes a "&" = false -> Js.includes b "&" = false ->
  a +:+ String "&" x = b +:+ String "&" y -> a = b /\ x = y.
Proof.
  revert b. induction a as [|c a IH]; intros [|e b] Ha Hb H.
  - rewrite !app_nil in H. injection H as ->. auto.
  - rewrite app_nil, app_cons in H. injection H as <- _.
    simpl in Hb. discriminate.
  - rewrite app_nil, app_cons in H. injection H as -> _.
    simpl in Ha. discriminate.
  - rewrite !app_cons in H. injection H as -> H.
    simpl in Ha, Hb. apply orb_false_iff in Ha as [_ Ha].
    apply orb_false_iff in Hb as [_ Hb].
    destruct (IH b Ha Hb H) as [-> ->]. auto.
Qed.

Lemma encode_no_ampersand (s : string) :
  Js.includes (encodeURIComponent s) "&" = false.
Proof.
  destruct (Js.includes (encodeURIComponent s) "&") eqn:H; [|reflexivity].
  apply (allSafe_includes _ _ (allSafe_encode s)) in H as [H | H];
    discriminate.
Qed.

(** X17. [encodeURIComponent] writes unreserved characters and percent
    signs only, so an encoded component holds no ampersand, equals sign,
    question mark, hash or slash; and it loses nothing: two strings with
    the same encoding are equal. *)
Theorem encodeURIComponent_is_safe_and_injective :
  (forall s x, Js.includes (encodeURIComponent s) x = true ->
               isUnreserved x = true \/ x = "%"%char)
  /\ (forall s, Js.includes (encodeURIComponent s) "&" = false
                /\ Js.includes (encodeURIComponent s) "=" = false
                /\ Js.includes (encodeURIComponent s) "?" = false
                /\ Js.includes (encodeURIComponent s) "#" = false
                /\ Js.includes (encodeURIComponent s) "/" = false)
  /\ (forall s1 s2, encodeURIComponent s1 = encodeURIComponent s2 ->
                    s1 = s2).
Proof.
  assert (Hsafe : forall s x, Js.includes (encodeURIComponent s) x = true ->
                              isUnreserved x = true \/ x = "%"%char).
  { intros s x. apply allSafe_includes, allSafe_encode. }
  split; [exact Hsafe|]. split; [|apply encodeURIComponent_inj].
  intros s.
  repeat split;
    (destruct (Js.includes (encodeURIComponent s) _) eqn:H; [|reflexivity];
     apply Hsafe in H as [H | H]; discriminate).
Qed.

(** X18. The address of the blocked page determines the URL and the site
    it was built from: when [runtime.getURL] maps different paths to
    different addresses, two blocked-page addresses are equal only for the
    same URL and the same site id. *)
Theorem blockedPageUrl_is_injective (runtimeGetURL : string -> string)
  (url1 url2 siteId1 siteId2 : string) :
  (forall p q, runtimeGetURL p = runtimeGetURL q -> p = q) ->
  blockedPageUrl runtimeGetURL url1 siteId1
  = blockedPageUrl runtimeGetURL url2 siteId2 ->
  url1 = url2 /\ siteId1 = siteId2.
Proof.
  intros Hinj H. unfold blockedPageUrl in H. apply Hinj in H.
  apply app_inv_head_str in H.
  change ("&siteId=" +:+ encodeURIComponent siteId1)
    with (String "&" ("siteId=" +:+ encodeURIComponent siteId1)) in H.
  change ("&siteId=" +:+ encodeURIComponent siteId2)
    with (String "&" ("siteId=" +:+ encodeURIComponent siteId2)) in H.
  apply cut_at_ampersand in H as [Hu Hs]; try apply encode_no_ampersand.
  apply app_inv_head_str in Hs.
  split; apply encodeURIComponent_inj; assumption.
Qed.

End EncodingExtras.

Section ListenerExtras.

Context {C : Type}.
Variable parseURL : string -> option URL.
Variables extensionScheme browserScheme : string.
Variable ALARM_PREFIX : string.
Variable runtimeGetURL : string -> string.

Local Abbreviation matchesSite := (urlMatchesSiteRules parseURL).
Local Abbreviation decide_sync := (shouldBlockUrl parseURL).
Local Abbreviation internal := (isInternalUrl extensionScheme browserScheme).
Local Abbreviation listener :=
  (onBeforeRequestListener (C := C) parseURL extensionScheme browserScheme
                           runtimeGetURL).
Local Abbreviation blockedPage := (blockedPageUrl runtimeGetURL).

(** The two fields of a verdict go together. *)
Lemma shouldBlockUrl_verdict (now : Z) (st : Backend C) (url : string) :
  match site (decide_sync now st url) with
  | Some _ => blocked (decide_sync now st url) = true
  | None => blocked (decide_sync now st url) = false
  end.
Proof.
  unfold shouldBlockUrl. rewrite shouldBlockUrl_loop_find.
  destruct (List.find _ (cachedSites st)); reflexivity.
Qed.

(** X19. The request listener cancels a request exactly when it is a
    main-frame request for a URL that is not internal and that some cached
    site matches while it holds no live grant.  It never starts a
    redirection without cancelling; a redirection goes to the tab of the
    request, which is neither 0 nor -1, and to the blocked page of the
    requested URL and of the site [shouldBlockUrl] returned. *)
Theorem listener_cancels_iff_blocked (now : Z) (st : Backend C)
  (details : RequestDetails) :
  let out := listener now st details in
  let url := req_url details in
  (cancel out = true <->
   req_type details = "main_frame"
   /\ internal url = false
   /\ exists s, In s (cachedSites st) /\ matchesSite url s = true
                /\ fst (isSiteUnlocked now (id s) st) = false)
  /\ (forall tab target,
        tabUpdate out = Some (tab, target) ->
        cancel out = true /\ tab = req_tabId details
        /\ tab <> 0 /\ tab <> -1
        /\ exists s, site (decide_sync now st url) = Some s
                     /\ target = blockedPage url (id s))
  /\ (cancel out = true -> req_tabId details <> 0 ->
      req_tabId details <> -1 -> tabUpdate out <> None).
Proof.
  intros out url. subst out url. unfold onBeforeRequestListener.
  destruct (String.eqb_spec (req_type details) "main_frame") as [Hty | Hty];
    cbn [negb].
  2: { split; [split; [discriminate | intros [? _]; contradiction]|].
       split; [discriminate | discriminate]. }
  destruct (internal (req_url details)) eqn:Hint.
  { split; [split; [discriminate | intros (_ & ? & _); discriminate]|].
    split; [discriminate | discriminate]. }
  pose proof (shouldBlockUrl_verdict now st (req_url details)) as Hv.
  destruct (site (decide_sync now st (req_url details))) as [s|] eqn:Hsite.
  - rewrite Hv. cbn [cancel tabUpdate].
    apply (shouldBlockUrl_site parseURL) in Hsite as [Hin Hs].
    unfold blocksNow in Hs. apply andb_true_iff in Hs as [Hm Hl].
    apply negb_true_iff in Hl. rewrite <- isSiteUnlocked_live in Hl.
    split; [split; [intros _ | reflexivity]|].
    { split; [exact Hty|]. split; [reflexivity|]. exists s. auto. }
    destruct (Z.eqb_spec (req_tabId details) 0) as [H0 | H0]; cbn [negb andb].
    { split; [discriminate | intros _ ?; contradiction]. }
    destruct (Z.eqb_spec (req_tabId details) (-1)) as [H1 | H1]; cbn [negb].
    { split; [discriminate | intros _ _ ?; contradiction]. }
    split; [|discriminate].
    intros tab target [= <- <-]. repeat split; auto. exists s. auto.
  - rewrite Hv. cbn [cancel tabUpdate].
    split; [split; [discriminate|]|split; [discriminate | discriminate]].
    intros (_ & _ & s & Hin & Hm & Hl).
    assert (Hb : blocked (decide_sync now st (req_url details)) = true).
    { apply (shouldBlockUrl_blocks parseURL _ _ _ s Hin).
      unfold blocksNow. rewrite Hm, <- isSiteUnlocked_live, Hl. reflexivity. }
    congruence.
Qed.

Lemma isInternalUrl_prefix (scheme rest : string) :
  scheme +:+ rest <> "" ->
  (scheme = extensionScheme \/ scheme = browserScheme \/ scheme = "about:") ->
  internal (scheme +:+ rest) = true.
Proof.
  intros Hne Hs. unfold isInternalUrl.
  destruct (String.eqb_spec (scheme +:+ rest) "") as [? | _]; [contradiction|].
  destruct Hs as [-> | [-> | ->]].
  - rewrite startsWith_app. reflexivity.
  - rewrite startsWith_app.
    destruct (Js.startsWith _ extensionScheme); reflexivity.
  - rewrite startsWith_app.
    destruct (Js.startsWith _ extensionScheme); [reflexivity|].
    destruct (Js.startsWith _ browserScheme); reflexivity.
Qed.

(** X20. Internal pages are left alone, and so is the blocked page: for a
    URL that [isInternalUrl] accepts the listener neither cancels nor
    redirects, [checkAndBlockUrl] redirects nothing and leaves the ledger
    as it is, and a tab on it is not among the tabs of any site.  Every
    non-empty URL that starts with the extension scheme, the browser
    scheme or "about:" is internal; so when the pages of the extension
    have addresses under the extension scheme, a redirection to the
    blocked page is never blocked in turn. *)
Theorem internal_pages_are_never_blocked :
  (forall scheme rest,
      scheme +:+ rest <> "" ->
      scheme = extensionScheme \/ scheme = browserScheme
      \/ scheme = "about:" ->
      internal (scheme +:+ rest) = true)
  /\
  (forall now stored (st : Backend C) url tabId type
          (s : BlockedSite C) (i : option Z) (tabs : list Tab),
      internal url = true ->
      listener now st (mkRequest url type tabId) = mkOutcome false None
      /\ checkAndBlockUrl parseURL extensionScheme browserScheme now stored
                          url st = (None, st)
      /\ matchingTabs parseURL extensionScheme browserScheme s
                      (mkTab i (Some url) :: tabs)
         = matchingTabs parseURL extensionScheme browserScheme s tabs)
  /\
  (forall now stored (st : Backend C) url siteId tabId type,
      (forall p, exists rest,
          runtimeGetURL p = extensionScheme +:+ rest
          /\ runtimeGetURL p <> "") ->
      listener now st (mkRequest (blockedPage url siteId) type tabId)
      = mkOutcome false None
      /\ checkAndBlockUrl parseURL extensionScheme browserScheme now stored
                          (blockedPage url siteId) st = (None, st)).
Proof.
  assert (Hlistener : forall now (st : Backend C) url tabId type,
             internal url = true ->
             listener now st (mkRequest url type tabId)
             = mkOutcome false None).
  { intros now st url tabId type Hint. unfold onBeforeRequestListener.
    cbn [req_url req_type req_tabId]. rewrite Hint.
    destruct (negb _); reflexivity. }
  assert (Hcheck : forall now stored (st : Backend C) url,
             internal url = true ->
             checkAndBlockUrl parseURL extensionScheme browserScheme now
                              stored url st = (None, st)).
  { intros now stored st url Hint. unfold checkAndBlockUrl.
    rewrite Hint. reflexivity. }
  split; [apply isInternalUrl_prefix|]. split.
  - intros now stored st url tabId type s i tabs Hint.
    split; [apply Hlistener, Hint|]. split; [apply Hcheck, Hint|].
    cbn [matchingTabs tab_id tab_url]. destruct i as [i|]; [|reflexivity].
    rewrite Hint. destruct ((i =? 0) || String.eqb url ""); reflexivity.
  - intros now stored st url siteId tabId type Hext.
    destruct (Hext ("/blocked.html?url=" +:+ encodeURIComponent url
                    +:+ "&siteId=" +:+ encodeURIComponent siteId))
      as (rest & Heq & Hne).
    assert (Hint : internal (blockedPage url siteId) = true).
    { unfold blockedPageUrl. rewrite Heq. apply isInternalUrl_prefix.
      - rewrite <- Heq. exact Hne.
      - auto. }
    split; [apply Hlistener, Hint | apply Hcheck, Hint].
Qed.

End ListenerExtras.

(** * Properties of the stored site list *)

Section StorageExtras.

Context {C : Type}.
Variable parseURL : string -> option URL.

Local Abbreviation matchesSite := (urlMatchesSiteRules parseURL).
Local Abbreviation findSite := (findMatchingBlockedSite parseURL).

Lemma find_append {A} (f : A -> bool) (l r : list A) :
  List.find f (l ++ r)
  = match List.find f l with
    | Some x => Some x
    | None => List.find f r
    end.
Proof.
  induction l as [|a l IH]; [reflexivity|].
  simpl. destruct (f a); [reflexivity | exact IH].
Qed.

Lemma getBlockedSites_Some (l : list (BlockedSite C)) :
  getBlockedSites (Some l) = l.
Proof. reflexivity. Qed.

Lemma findIndex_None {A} (f : A -> bool) (l : list A) :
  findIndex f l = None <-> Forall (fun x => f x = false) l.
Proof.
  induction l as [|x l IH]; simpl.
  - split; auto.
  - destruct (f x) eqn:Hx.
    + split; [discriminate | intros H; inversion H; congruence].
    + destruct (findIndex f l); simpl.
      * split; [discriminate|]. intros H. inversion H as [|? ? _ Hl].
        apply IH in Hl. discriminate.
      * split; [|reflexivity]. intros _. constructor; [exact Hx|].
        apply IH. reflexivity.
Qed.

Lemma findIndex_Some {A} (f : A -> bool) (l : list A) (i : nat) :
  findIndex f l = Some i ->
  exists l1 x l2, l = l1 ++ x :: l2 /\ length l1 = i /\ f x = true
                  /\ Forall (fun y => f y = false) l1.
Proof.
  revert i. induction l as [|a l IH]; intros i; simpl; [discriminate|].
  destruct (f a) eqn:Ha.
  - intros [= <-]. exists [], a, l. auto.
  - destruct (findIndex f l) as [j|]; simpl; [|discriminate].
    intros [= <-]. destruct (IH j eq_refl) as (l1 & x & l2 & -> & <- & Hx & Hl1).
    exists (a :: l1), x, l2. repeat split; auto.
Qed.

Lemma alter_middle {A} (g : A -> A) (l1 l2 : list A) (x : A) :
  alter g (length l1) (l1 ++ x :: l2) = l1 ++ g x :: l2.
Proof.
  induction l1 as [|a l1 IH]; [reflexivity|].
  simpl. f_equal. exact IH.
Qed.

(** X21. [updateBlockedSite] with an id that no stored site has writes
    nothing.  Otherwise it replaces the first site with that id by the
    site merged with the update and leaves every other site, their order,
    the statistics and the settings as they are; when the update holds no
    id, the ids of the stored sites are the same afterwards. *)
Theorem updateBlockedSite_touches_one_site :
  (forall id0 (updates : SiteUpdate C) sto,
      Forall (fun s => id s <> id0) (getBlockedSites (blockedSitesKey sto)) ->
      updateBlockedSite id0 updates sto = sto)
  /\
  (forall id0 (updates : SiteUpdate C) sto l1 s l2,
      getBlockedSites (blockedSitesKey sto) = l1 ++ s :: l2 ->
      id s = id0 ->
      Forall (fun s' => id s' <> id0) l1 ->
      let sto' := updateBlockedSite id0 updates sto in
      blockedSitesKey sto' = Some (l1 ++ mergeSite s updates :: l2)
      /\ statsKey sto' = statsKey sto
      /\ settingsKey sto' = settingsKey sto
      /\ (upd_id updates = None ->
          map id (getBlockedSites (blockedSitesKey sto'))
          = map id (getBlockedSites (blockedSitesKey sto)))).
Proof.
  split.
  - intros id0 updates sto Hnone. unfold updateBlockedSite.
    assert (Hidx : findIndex (fun s : BlockedSite C => String.eqb (id s) id0)
                             (getBlockedSites (blockedSitesKey sto)) = None).
    { apply findIndex_None. eapply Forall_impl; [exact Hnone|].
      intros s Hs. simpl in *. apply String.eqb_neq, Hs. }
    rewrite Hidx. reflexivity.
  - intros id0 updates sto l1 s l2 Hsites Hid Hl1 sto'. subst sto'.
    unfold updateBlockedSite. rewrite Hsites.
    destruct (findIndex _ (l1 ++ s :: l2)) as [i|] eqn:Hidx.
    + apply findIndex_Some in Hidx
        as (l1' & x & l2' & Heq & <- & Hx & Hl1').
      assert (l1' = l1 /\ x = s /\ l2' = l2) as (-> & -> & ->).
      { clear Hsites. revert l1' Heq Hl1'.
        induction l1 as [|a l1 IH]; intros [|b l1'] Heq Hl1'.
        - injection Heq as -> ->. auto.
        - injection Heq as -> _. inversion Hl1' as [|? ? Hb _].
          apply String.eqb_neq in Hb. contradiction.
        - injection Heq as <- _. inversion Hl1 as [|? ? Ha _].
          apply String.eqb_eq in Hx. contradiction.
        - injection Heq as -> Heq. inversion Hl1; inversion Hl1'; subst.
          destruct (IH ltac:(assumption) l1' Heq ltac:(assumption))
            as (-> & -> & ->). auto. }
      rewrite alter_middle.
      cbn [saveBlockedSites blockedSitesKey statsKey settingsKey].
      split; [reflexivity|]. split; [reflexivity|]. split; [reflexivity|].
      intros Hnoid. rewrite getBlockedSites_Some, !map_app.
      cbn [map]. unfold mergeSite. cbn [id]. rewrite Hnoid. reflexivity.
    + apply findIndex_None in Hidx. apply Forall_app in Hidx as [_ Hs].
      inversion Hs as [|? ? Hs' _]. apply String.eqb_neq in Hs'.
      contradiction.
Qed.

(** X22. [addBlockedSite] puts the new site, with the given id and
    creation time, behind the stored ones.  So every URL that had a
    matching site keeps that site as its first match, and a URL that had
    none gets the new site exactly when the new site matches it. *)
Theorem addBlockedSite_keeps_precedence (randomId : string) (now : Z)
  (draft : SiteDraft C) (sto : Storage C) (url : string) :
  let new := fst (addBlockedSite randomId now draft sto) in
  let sto' := snd (addBlockedSite randomId now draft sto) in
  id new = randomId /\ createdAt new = now
  /\ blockedSitesKey sto'
     = Some (getBlockedSites (blockedSitesKey sto) ++ [new])
  /\ (forall s, findSite (blockedSitesKey sto) url = Some s ->
                findSite (blockedSitesKey sto') url = Some s)
  /\ (findSite (blockedSitesKey sto) url = None ->
      findSite (blockedSitesKey sto') url
      = if matchesSite url new then Some new else None).
Proof.
  intros new sto'. subst new sto'. unfold addBlockedSite.
  cbn [fst snd saveBlockedSites blockedSitesKey id createdAt].
  split; [reflexivity|]. split; [reflexivity|]. split; [reflexivity|].
  unfold findMatchingBlockedSite. rewrite getBlockedSites_Some.
  set (sites := getBlockedSites (blockedSitesKey sto)).
  set (new := mkSite randomId _ _ _ _ _ _ now). split.
  - intros s Hs. rewrite find_append, Hs. reflexivity.
  - intros Hnone. rewrite find_append, Hnone. simpl.
    destruct (matchesSite url new); reflexivity.
Qed.

(** X23. After a refresh of the cache, and while no stored grant is live,
    the synchronous backend and the stored list agree: [shouldBlockUrl]
    returns the site that [findMatchingBlockedSite] finds, and blocks
    exactly when there is one.  With nothing stored, nothing is
    blocked. *)
Theorem refreshed_backend_follows_storage (now : Z) (sto : Storage C)
  (st : Backend C) (url : string) :
  (forall k g, unlockedSites st !! k = Some g -> expiresAt g <= now) ->
  let v := shouldBlockUrl parseURL now
             (refreshCache (blockedSitesKey sto) st) url in
  site v = findSite (blockedSitesKey sto) url
  /\ (blocked v = true <-> findSite (blockedSitesKey sto) url <> None)
  /\ (blockedSitesKey sto = None -> blocked v = false).
Proof.
  intros Hnolive v. subst v. unfold shouldBlockUrl, refreshCache.
  cbn [cachedSites unlockedSites]. rewrite shouldBlockUrl_loop_find.
  unfold findMatchingBlockedSite.
  assert (Hsame : forall l : list (BlockedSite C),
             List.find (blocksNow parseURL now (unlockedSites st) url) l
             = List.find (fun s => matchesSite url s) l).
  { induction l as [|s l IH]; [reflexivity|]. simpl.
    assert (Hs : blocksNow parseURL now (unlockedSites st) url s
                 = matchesSite url s).
    { unfold blocksNow, liveGrant.
      destruct (unlockedSites st !! id s) as [g|] eqn:Hg;
        [|apply andb_true_r].
      specialize (Hnolive _ _ Hg).
      destruct (Z.gtb_spec (expiresAt g) now); [lia | apply andb_true_r]. }
    rewrite Hs, IH. reflexivity. }
  rewrite Hsame.
  destruct (List.find _ (getBlockedSites (blockedSitesKey sto))) as [s|] eqn:Hf.
  - split; [reflexivity|]. split; [split; [discriminate | reflexivity]|].
    intros Hnone. rewrite Hnone in Hf. discriminate.
  - split; [reflexivity|]. split; [split; [discriminate | congruence]|].
    reflexivity.
Qed.

End StorageExtras.

(** * Properties of the message handlers and of the alarm listener *)

Section BackgroundExtras.

Context {C : Type}.
Variable parseURL : string -> option URL.
Variables extensionScheme browserScheme : string.
Variable ALARM_PREFIX : string.
Variable runtimeGetURL : string -> string.

Local Abbreviation matchesSite := (urlMatchesSiteRules parseURL).
Local Abbreviation findSite := (findMatchingBlockedSite parseURL).
Local Abbreviation checkBlocked := (onCheckBlocked (C := C) parseURL).
Local Abbreviation siteInfo := (onGetSiteInfo (C := C) parseURL).
Local Abbreviation unlockSite := (onUnlockSite (C := C) ALARM_PREFIX).
Local Abbreviation alarmListener :=
  (onAlarmListener (C := C) parseURL extensionScheme browserScheme
                   ALARM_PREFIX runtimeGetURL).
Local Abbreviation revoke :=
  (revokeAccess (C := C) parseURL extensionScheme browserScheme
                ALARM_PREFIX).

(** X24. The answer to [CHECK_BLOCKED] says blocked exactly when it names
    a site, and that site is the first stored site that matches the URL;
    it reports statistics as disabled whenever no site matches.  On a URL
    that is not internal it blocks exactly what the navigation check
    redirects, with the same ledger afterwards. *)
Theorem check_blocked_answer (now : Z) (url : string) (sto : Storage C)
  (st : Backend C) :
  let r := fst (checkBlocked now url sto st) in
  (cb_blocked r = true <-> cb_site r <> None)
  /\ (forall s, cb_site r = Some s ->
                findSite (blockedSitesKey sto) url = Some s
                /\ fst (isSiteUnlocked now (id s) st) = false)
  /\ (findSite (blockedSitesKey sto) url = None ->
      cb_blocked r = false /\ cb_statsEnabled r = false)
  /\ (isInternalUrl extensionScheme browserScheme url = false ->
      checkAndBlockUrl parseURL extensionScheme browserScheme now
                       (blockedSitesKey sto) url st
      = (cb_site r, snd (checkBlocked now url sto st))).
Proof.
  intros r. subst r. unfold onCheckBlocked, checkAndBlockUrl.
  destruct (findSite (blockedSitesKey sto) url) as [s|] eqn:Hfind.
  - destruct (isSiteUnlocked now (id s) st) as [[] st'] eqn:Hu;
      cbn [fst snd cb_blocked cb_site cb_statsEnabled negb].
    + split; [split; [discriminate | congruence]|].
      split; [discriminate|]. split; [intros H; discriminate H|].
      intros ->. reflexivity.
    + split; [split; [discriminate | reflexivity]|].
      split; [intros s' [= <-]; rewrite Hu; split; reflexivity|].
      split; [intros H; discriminate H|].
      intros ->. reflexivity.
  - cbn [fst snd cb_blocked cb_site cb_statsEnabled].
    split; [split; [discriminate | congruence]|].
    split; [discriminate|]. split; [auto|]. intros ->. reflexivity.
Qed.

(** X25. [GET_SITE_INFO] looks the site up by its id first and by the URL
    only when the id is missing, empty or unknown; it answers
    [alreadyUnlocked: true] exactly when it also gives a deadline, which
    is that of the live grant of the site it names. *)
Theorem site_info_lookup_order (now : Z) (siteId : option string)
  (url : string) (sto : Storage C) (st : Backend C) :
  let r := fst (siteInfo now siteId url sto st) in
  let byId k := List.find (fun s => String.eqb (id s) k)
                          (getBlockedSites (blockedSitesKey sto)) in
  (forall k s, siteId = Some k -> k <> "" -> byId k = Some s ->
               si_site r = Some s)
  /\ ((siteId = None \/ siteId = Some ""
       \/ exists k, siteId = Some k /\ byId k = None) ->
      si_site r = if String.eqb url "" then None
                  else findSite (blockedSitesKey sto) url)
  /\ (si_alreadyUnlocked r = Some true <-> si_expiresAt r <> None)
  /\ (forall e, si_expiresAt r = Some e ->
                exists s g, si_site r = Some s
                            /\ unlockedSites st !! id s = Some g
                            /\ expiresAt g = e /\ now < e)
  /\ (si_site r = None -> si_statsEnabled r = false).
Proof.
  intros r byId. subst r.
  assert (Hshape : forall o : option (BlockedSite C),
    let r := fst (match o with
                  | Some s =>
                      let '(unlockState, st') := getUnlockState now (id s) st in
                      match unlockState with
                      | Some u =>
                          (mkSiteInfo (Some s) (statsEnabled (getSettings sto))
                                      (Some true) (Some (expiresAt u)), st')
                      | None =>
                          (mkSiteInfo (Some s) (statsEnabled (getSettings sto))
                                      (Some false) None, st')
                      end
                  | None => (mkSiteInfo None false None None, st)
                  end) in
    si_site r = o
    /\ (si_alreadyUnlocked r = Some true <-> si_expiresAt r <> None)
    /\ (forall e, si_expiresAt r = Some e ->
                  exists s g, si_site r = Some s
                              /\ unlockedSites st !! id s = Some g
                              /\ expiresAt g = e /\ now < e)
    /\ (si_site r = None -> si_statsEnabled r = false)).
  { intros [s|]; cbv zeta.
    - unfold getUnlockState.
      destruct (unlockedSites st !! id s) as [g|] eqn:Hg.
      + destruct (Z.leb_spec (expiresAt g) now) as [Hle | Hlt];
          cbn [fst si_site si_alreadyUnlocked si_expiresAt si_statsEnabled].
        * split; [reflexivity|].
          split; [split; [discriminate | congruence]|].
          split; discriminate.
        * split; [reflexivity|].
          split; [split; [discriminate | reflexivity]|].
          split; [|discriminate]. intros e [= <-]. exists s, g. auto.
      + cbn [fst si_site si_alreadyUnlocked si_expiresAt si_statsEnabled].
        split; [reflexivity|].
        split; [split; [discriminate | congruence]|]. split; discriminate.
    - cbn [fst si_site si_alreadyUnlocked si_expiresAt si_statsEnabled].
      split; [reflexivity|].
      split; [split; [discriminate | congruence]|].
      split; [discriminate | reflexivity]. }
  unfold onGetSiteInfo.
  match goal with
  | |- context [fst (match ?o with Some _ => _ | None => _ end)] =>
      destruct (Hshape o) as (Hsite & Hflag & Hexp & Hstats)
  end.
  cbv zeta in Hsite, Hflag, Hexp, Hstats.
  split; [|split; [|split; [exact Hflag | split; [exact Hexp | exact Hstats]]]].
  - intros k s -> Hk Hs. rewrite Hsite.
    destruct (String.eqb_spec k "") as [? | _]; [contradiction|].
    fold (byId k). rewrite Hs. reflexivity.
  - intros Hid. rewrite Hsite.
    destruct Hid as [-> | [-> | (k & -> & Hk)]]; [reflexivity | reflexivity|].
    destruct (String.eqb k ""); [reflexivity|].
    fold (byId k). rewrite Hk. reflexivity.
Qed.

(** X26. A grant made through [UNLOCK_SITE] is what the queries report
    until its deadline: [CHECK_UNLOCK_STATE] answers unlocked with the
    deadline that [UNLOCK_SITE] returned, and [CHECK_BLOCKED] does not
    block a URL whose first matching site is the unlocked one; from the
    deadline on [CHECK_UNLOCK_STATE] answers locked, without a
    deadline. *)
Theorem unlock_site_then_queries (now t : Z) (k : string) (d : option Z)
  (sto : Storage C) (st : Backend C) (url : string) (s : BlockedSite C) :
  let e := ul_expiresAt (fst (unlockSite now k d st)) in
  let st1 := snd (unlockSite now k d st) in
  ul_success (fst (unlockSite now k d st)) = true
  /\ e = now + default 60 d * 60 * 1000
  /\ (t < e ->
      onCheckUnlockState t k st1 = (mkUnlockStateResponse true (Some e), st1)
      /\ (findSite (blockedSitesKey sto) url = Some s -> id s = k ->
          cb_blocked (fst (checkBlocked t url sto st1)) = false))
  /\ (e <= t ->
      fst (onCheckUnlockState t k st1) = mkUnlockStateResponse false None).
Proof.
  intros e st1. subst e st1. unfold onUnlockSite, grantAccess.
  cbn [fst snd ul_success ul_expiresAt].
  set (e := now + default 60 d * 60 * 1000).
  split; [reflexivity|]. split; [reflexivity|]. split.
  - intros Ht. split.
    + unfold onCheckUnlockState, getUnlockState. cbn [unlockedSites].
      rewrite lookup_insert_eq. cbn [expiresAt].
      destruct (Z.leb_spec e t) as [? | _]; [lia | reflexivity].
    + intros Hfind Hid. unfold onCheckBlocked. rewrite Hfind, Hid.
      unfold isSiteUnlocked. cbn [unlockedSites].
      rewrite lookup_insert_eq. cbn [expiresAt].
      destruct (Z.leb_spec e t) as [? | _]; [lia | reflexivity].
  - intros Ht. unfold onCheckUnlockState, getUnlockState.
    cbn [unlockedSites]. rewrite lookup_insert_eq. cbn [expiresAt].
    destruct (Z.leb_spec e t) as [_ | ?]; [reflexivity | lia].
Qed.

End BackgroundExtras.

Section AlarmExtras.

Context {C : Type}.
Variable parseURL : string -> option URL.
Variables extensionScheme browserScheme : string.
Variable ALARM_PREFIX : string.
Variable runtimeGetURL : string -> string.

Local Abbreviation matchesSite := (urlMatchesSiteRules parseURL).
Local Abbreviation alarmListener :=
  (onAlarmListener (C := C) parseURL extensionScheme browserScheme
                   ALARM_PREFIX runtimeGetURL).
Local Abbreviation revoke :=
  (revokeAccess (C := C) parseURL extensionScheme browserScheme
                ALARM_PREFIX).
Local Abbreviation tabsOf :=
  (matchingTabs (C := C) parseURL extensionScheme browserScheme).
Local Abbreviation redirects := (relockRedirects runtimeGetURL).

(** The tabs of a site are picked, in order, among the tabs with an id. *)
Lemma matchingTabs_sublist (s : BlockedSite C) (tabs : list Tab) :
  tabsOf s tabs `sublist_of` omap tab_id tabs.
Proof.
  induction tabs as [|tab tabs IH]; [constructor|].
  cbn [matchingTabs omap list_omap].
  destruct (tab_id tab) as [i|]; [|exact IH].
  destruct (tab_url tab) as [u|]; [|apply sublist_cons, IH].
  destruct ((i =? 0) || String.eqb u ""); [apply sublist_cons, IH|].
  destruct (isInternalUrl extensionScheme browserScheme u);
    [apply sublist_cons, IH|].
  destruct (matchesSite u s); [apply sublist_skip | apply sublist_cons];
    exact IH.
Qed.

(** With distinct tab ids, [tabs.get] finds the tab that carries the id. *)
Lemma getTab_unique (tabs : list Tab) (tab : Tab) (i : Z) :
  NoDup (omap tab_id tabs) ->
  In tab tabs -> tab_id tab = Some i ->
  getTab tabs i = Some tab.
Proof.
  induction tabs as [|t tabs IH]; intros Hnd Hin Hid; [destruct Hin|].
  unfold getTab. cbn [List.find].
  cbn [omap list_omap] in Hnd.
  destruct Hin as [-> | Hin].
  - rewrite Hid, Z.eqb_refl. reflexivity.
  - destruct (tab_id t) as [j|] eqn:Hj.
    + apply NoDup_cons in Hnd as [Hnotin Hnd].
      destruct (Z.eqb_spec j i) as [-> | _].
      * exfalso. apply Hnotin. apply list_elem_of_omap.
        exists tab. split; [apply list_elem_of_In, Hin | exact Hid].
      * apply IH; assumption.
    + apply IH; assumption.
Qed.

Lemma redirects_cover (k : string) (tabsNow : list Tab) (ids : list Z) :
  (forall i, In i ids ->
             exists tab u, getTab tabsNow i = Some tab
                           /\ tab_url tab = Some u /\ u <> "") ->
  map fst (redirects k tabsNow ids) = ids.
Proof.
  induction ids as [|i ids IH]; intros Hall; [reflexivity|].
  destruct (Hall i (or_introl eq_refl)) as (tab & u & Hget & Hurl & Hu).
  cbn [relockRedirects]. rewrite Hget, Hurl.
  destruct (String.eqb_spec u "") as [? | _]; [contradiction|].
  cbn [map fst]. f_equal. apply IH.
  intros j Hj. apply Hall. right. exact Hj.
Qed.

Lemma redirects_target (k : string) (tabsNow : list Tab) (ids : list Z)
  (i : Z) (target : string) :
  In (i, target) (redirects k tabsNow ids) ->
  exists tab u, In tab tabsNow /\ tab_id tab = Some i
                /\ tab_url tab = Some u
                /\ target = blockedPageUrl runtimeGetURL u k.
Proof.
  induction ids as [|j ids IH]; [intros []|].
  cbn [relockRedirects].
  destruct (getTab tabsNow j) as [tab|] eqn:Hget; [|exact IH].
  destruct (tab_url tab) as [u|] eqn:Hurl; [|exact IH].
  destruct (String.eqb u ""); [exact IH|].
  intros [[= <- <-] | Hin]; [|exact (IH Hin)].
  apply List.find_some in Hget as [Hin Hid].
  exists tab, u. split; [exact Hin|]. split; [|auto].
  destruct (tab_id tab) as [i'|]; [|discriminate].
  apply Z.eqb_eq in Hid. subst. reflexivity.
Qed.

(** X27. When a relock alarm fires and the open tabs, with distinct ids,
    are the same while it is handled, every tab that the revocation
    reports is redirected once, in the order reported, to the blocked page
    of its own URL and of the relocked site, and the [SITE_RELOCKED]
    message names that site; an alarm whose name lacks the prefix causes
    no redirection and no message. *)
Theorem relock_redirects_each_tab_once :
  (forall (tabs : list Tab) (k : string) (st : Backend C),
      NoDup (omap tab_id tabs) ->
      let out := alarmListener tabs tabs (ALARM_PREFIX +:+ k) st in
      snd (fst out) = Some k
      /\ snd out = snd (revoke tabs k st)
      /\ map fst (fst (fst out)) = fst (revoke tabs k st)
      /\ NoDup (map fst (fst (fst out)))
      /\ (forall i target,
            In (i, target) (fst (fst out)) ->
            exists tab u, In tab tabs /\ tab_id tab = Some i
                          /\ tab_url tab = Some u
                          /\ target = blockedPageUrl runtimeGetURL u k))
  /\
  (forall (tabs tabsNow : list Tab) (name : string) (st : Backend C),
      Js.startsWith name ALARM_PREFIX = false ->
      alarmListener tabs tabsNow name st = ([], None, st)).
Proof.
  split.
  - intros tabs k st Hnd out. subst out.
    unfold onAlarmListener, handleRelockAlarm.
    rewrite startsWith_app, sliceFrom_app. cbn [negb].
    destruct (revoke tabs k st) as [ids st'] eqn:Hrev.
    cbn [fst snd].
    assert (Hids : ids = findTabsOnBlockedSite parseURL extensionScheme
                           browserScheme tabs k st).
    { unfold revokeAccess in Hrev. injection Hrev as <- _. reflexivity. }
    assert (Hcover : map fst (redirects k tabs ids) = ids).
    { apply redirects_cover. intros i Hi. rewrite Hids in Hi.
      unfold findTabsOnBlockedSite in Hi.
      destruct (List.find _ (cachedSites st)) as [s|]; [|destruct Hi].
      apply (matchingTabs_In parseURL extensionScheme browserScheme) in Hi
        as (tab & u & Hin & Hid & _ & Hurl & Hu & _).
      exists tab, u. split; [|auto]. apply getTab_unique; assumption. }
    split; [reflexivity|]. split; [reflexivity|]. split; [exact Hcover|].
    split; [|apply redirects_target].
    rewrite Hcover, Hids. unfold findTabsOnBlockedSite.
    destruct (List.find _ (cachedSites st)) as [s|]; [|constructor].
    apply (sublist_NoDup _ _ Hnd), matchingTabs_sublist.
  - intros tabs tabsNow name st Hname.
    unfold onAlarmListener, handleRelockAlarm. rewrite Hname. reflexivity.
Qed.

End AlarmExtras.

(** * Closed instances of the further properties *)

Lemma site_blocks_iff_witness :
  enabled disabledSite = false
  /\ urlMatchesSiteRules parseSimpleURL "https://www.reddit.com/r/test"
                         disabledSite = false
  /\ urlMatchesSiteRules parseSimpleURL "https://www.reddit.com/r/test"
                         redditSite = true.
Proof.
  split; [reflexivity|]. split.
  - destruct (site_blocks_iff parseSimpleURL disabledSite
                "https://www.reddit.com/r/test") as (_ & Hoff & _).
    apply Hoff. reflexivity.
  - destruct (site_blocks_iff parseSimpleURL redditSite
                "https://www.reddit.com/r/test") as (Hiff & _ & _).
    apply Hiff. split; [reflexivity|]. split.
    + exists (mkRule "reddit.com" false). split; [left; reflexivity|].
      vm_compute. reflexivity.
    + intros r [<- | []]. discriminate.
Defined.

Lemma rule_order_is_irrelevant_witness :
  rules sandwichSite ≡ₚ rules sandwichSwapped
  /\ urlMatchesSiteRules parseSimpleURL "https://x.com/home" sandwichSite
     = urlMatchesSiteRules parseSimpleURL "https://x.com/home"
                           sandwichSwapped.
Proof.
  assert (Hperm : rules sandwichSite ≡ₚ rules sandwichSwapped)
    by apply perm_swap.
  split; [exact Hperm|].
  apply (rule_order_is_irrelevant parseSimpleURL sandwichSite sandwichSwapped
           "https://x.com/home"); [reflexivity | exact Hperm].
Defined.

Lemma matching_ignores_case_witness :
  Js.toLowerCase "/Messages/Inbox" = Js.toLowerCase "/messages/inbox"
  /\ Js.toLowerCase "X.com/MESSAGES" = Js.toLowerCase "x.com/messages"
  /\ urlMatchesPattern parseSimpleURL "https://x.com/Messages/Inbox"
                       "X.com/MESSAGES"
     = urlMatchesPattern parseSimpleURL "https://x.com/messages/inbox"
                         "x.com/messages".
Proof.
  split; [reflexivity|]. split; [reflexivity|].
  apply (matching_ignores_case parseSimpleURL
           "https://x.com/Messages/Inbox" "https://x.com/messages/inbox"
           "X.com/MESSAGES" "x.com/messages"
           (mkURL "https:" "" "" "x.com" "" "/Messages/Inbox" "" "")
           (mkURL "https:" "" "" "x.com" "" "/messages/inbox" "" ""));
    reflexivity.
Defined.

Lemma exact_host_pattern_witness :
  normalizePattern " https://Reddit.com " = "reddit.com"
  /\ urlMatchesPattern parseSimpleURL "https://www.reddit.com/r/test"
                       " https://Reddit.com " = true.
Proof.
  split; [reflexivity|].
  apply (exact_host_pattern parseSimpleURL "https://www.reddit.com/r/test"
           " https://Reddit.com "
           (mkURL "https:" "" "" "www.reddit.com" "" "/r/test" "" ""));
    [reflexivity | reflexivity | reflexivity|].
  left. reflexivity.
Defined.

Lemma www_host_stays_matched_witness :
  urlMatchesPattern parseSimpleURL "https://x.com/home" "x.c*" = true
  /\ urlMatchesPattern parseSimpleURL "https://www.x.com/home" "x.c*" = true.
Proof.
  assert (H : urlMatchesPattern parseSimpleURL "https://x.com/home" "x.c*"
              = true) by (vm_compute; reflexivity).
  split; [exact H|].
  apply (www_host_stays_matched parseSimpleURL "https://x.com/home"
           "https://www.x.com/home" "x.c*"
           (mkURL "https:" "" "" "x.com" "" "/home" "" "")
           (mkURL "https:" "" "" "www.x.com" "" "/home" "" ""));
    [reflexivity | reflexivity | reflexivity | reflexivity | reflexivity
     | exact H].
Defined.

Lemma path_pattern_covers_subpaths_witness :
  urlMatchesPattern parseSimpleURL "https://x.com/messages/" "x.com/messages"
  = true
  /\ urlMatchesPattern parseSimpleURL "https://x.com/messages//123/photo"
                       "x.com/messages" = true.
Proof.
  assert (H : urlMatchesPattern parseSimpleURL "https://x.com/messages/"
                                "x.com/messages" = true)
    by (vm_compute; reflexivity).
  split; [exact H|].
  apply (path_pattern_covers_subpaths parseSimpleURL
           "https://x.com/messages/" "https://x.com/messages//123/photo"
           "x.com/messages" "123/photo"
           (mkURL "https:" "" "" "x.com" "" "/messages/" "" "")
           (mkURL "https:" "" "" "x.com" "" "/messages//123/photo" "" ""));
    [reflexivity | reflexivity | reflexivity | reflexivity | reflexivity
     | reflexivity | exact H].
Defined.

Lemma trailing_star_path_pattern_witness :
  pathPart "reddit.com/r/*" = "/r/" +:+ "*"
  /\ urlMatchesPattern parseSimpleURL "https://www.reddit.com/r/rocq/top"
                       "reddit.com/r/*" = true.
Proof.
  split; [reflexivity|].
  apply (trailing_star_path_pattern parseSimpleURL
           "https://www.reddit.com/r/rocq/top" "reddit.com/r/*" "/r/"
           (mkURL "https:" "" "" "www.reddit.com" "" "/r/rocq/top" "" ""));
    [reflexivity | reflexivity | reflexivity | reflexivity | reflexivity|].
  exists "rocq/top". split; reflexivity.
Defined.

Lemma ledger_stays_well_formed_witness :
  LedgerOk sampleAlarmPrefix noGrant
  /\ LedgerOk sampleAlarmPrefix
              (snd (grantAccess sampleAlarmPrefix 0 "s1" None noGrant)).
Proof.
  destruct (ledger_stays_well_formed (C := unit) parseSimpleURL
              sampleExtensionScheme sampleBrowserScheme sampleAlarmPrefix)
    as (Hempty & Hgrant & _).
  assert (H0 : LedgerOk sampleAlarmPrefix noGrant) by apply Hempty.
  split; [exact H0 | apply Hgrant, H0].
Defined.

Lemma revoke_undoes_grant_witness :
  unlockedSites noGrant !! "s1" = None
  /\ alarms noGrant !! (sampleAlarmPrefix +:+ "s1") = None
  /\ snd (revokeAccess parseSimpleURL sampleExtensionScheme
            sampleBrowserScheme sampleAlarmPrefix [redditTab] "s1"
            (snd (grantAccess sampleAlarmPrefix 0 "s1" (Some 30) noGrant)))
     = noGrant.
Proof.
  split; [reflexivity|]. split; [reflexivity|].
  apply (revoke_undoes_grant parseSimpleURL sampleExtensionScheme
           sampleBrowserScheme sampleAlarmPrefix 0 "s1" (Some 30) [redditTab]
           noGrant); reflexivity.
Defined.

Lemma ledger_queries_agree_witness :
  "s2" <> "s1"
  /\ unlockedSites (snd (isSiteUnlocked 2000 "s1" firstUnlocked)) !! "s2"
     = unlockedSites firstUnlocked !! "s2"
  /\ snd (getUnlockState 2000 "s1" firstUnlocked)
     = snd (isSiteUnlocked 2000 "s1" firstUnlocked).
Proof.
  pose proof (ledger_queries_agree 2000 "s1" firstUnlocked) as H.
  cbv zeta in H. destruct H as (_ & _ & Hsame & Hother & _).
  assert (Hne : "s2" <> "s1") by discriminate.
  split; [exact Hne|]. split; [apply Hother, Hne | exact Hsame].
Defined.

Lemma ledger_sites_are_independent_witness :
  "s1" <> "s2"
  /\ fst (isSiteUnlocked 10 "s2"
            (snd (grantAccess sampleAlarmPrefix 0 "s1" None firstUnlocked)))
     = fst (isSiteUnlocked 10 "s2" firstUnlocked).
Proof.
  assert (Hne : "s1" <> "s2") by discriminate.
  split; [exact Hne|].
  apply (ledger_sites_are_independent parseSimpleURL sampleExtensionScheme
           sampleBrowserScheme sampleAlarmPrefix 0 10 "s1" "s2" None
           [redditTab] firstUnlocked Hne).
Defined.

Lemma expired_stays_expired_witness :
  1000 <= 2000
  /\ fst (isSiteUnlocked 1000 "s1" firstUnlocked) = false
  /\ fst (isSiteUnlocked 2000 "s1" firstUnlocked) = false.
Proof.
  assert (Hle : 1000 <= 2000) by lia.
  assert (H0 : fst (isSiteUnlocked 1000 "s1" firstUnlocked) = false)
    by (vm_compute; reflexivity).
  split; [exact Hle|]. split; [exact H0|].
  apply (expired_stays_expired 1000 2000 "s1" firstUnlocked Hle H0).
Defined.

Lemma grant_suspends_blocking_until_deadline_witness :
  fst (grantAccess sampleAlarmPrefix 0 "s1" (Some 1) noGrant) <= 60000
  /\ blocked (shouldBlockUrl parseSimpleURL 60000
                (snd (grantAccess sampleAlarmPrefix 0 "s1" (Some 1) noGrant))
                "https://www.reddit.com/r/test") = true.
Proof.
  pose proof (grant_suspends_blocking_until_deadline parseSimpleURL
                sampleAlarmPrefix 0 60000 "s1" (Some 1) noGrant
                "https://www.reddit.com/r/test") as H.
  cbv zeta in H. destruct H as [_ Hafter].
  assert (Hle : fst (grantAccess sampleAlarmPrefix 0 "s1" (Some 1) noGrant)
                <= 60000) by (vm_compute; discriminate).
  split; [exact Hle|].
  apply (Hafter Hle redditSite); [left; reflexivity | reflexivity|].
  vm_compute. reflexivity.
Defined.

Lemma revoked_tabs_are_blocked_witness :
  In 7 (fst (revokeAccess parseSimpleURL sampleExtensionScheme
               sampleBrowserScheme sampleAlarmPrefix [redditTab] "s1"
               firstUnlocked))
  /\ exists tab u,
       In tab [redditTab] /\ tab_id tab = Some 7 /\ tab_url tab = Some u
       /\ blocked (shouldBlockUrl parseSimpleURL 0
                     (snd (revokeAccess parseSimpleURL sampleExtensionScheme
                             sampleBrowserScheme sampleAlarmPrefix
                             [redditTab] "s1" firstUnlocked)) u) = true.
Proof.
  assert (Hin : In 7 (fst (revokeAccess parseSimpleURL sampleExtensionScheme
                             sampleBrowserScheme sampleAlarmPrefix
                             [redditTab] "s1" firstUnlocked)))
    by (vm_compute; left; reflexivity).
  split; [exact Hin|].
  apply (revoked_tabs_are_blocked parseSimpleURL sampleExtensionScheme
           sampleBrowserScheme sampleAlarmPrefix [redditTab] "s1"
           firstUnlocked 0 7 Hin).
Defined.

Lemma encodeURIComponent_is_safe_and_injective_witness :
  Js.includes (encodeURIComponent "a b/c") "%" = true
  /\ (isUnreserved "%" = true \/ "%"%char = "%"%char)
  /\ encodeURIComponent "a b/c" = "a%20b%2Fc".
Proof.
  destruct encodeURIComponent_is_safe_and_injective as (Hsafe & _ & _).
  assert (H : Js.includes (encodeURIComponent "a b/c") "%" = true)
    by reflexivity.
  split; [exact H|]. split; [exact (Hsafe "a b/c" "%"%char H) | reflexivity].
Defined.

Lemma blockedPageUrl_is_injective_witness :
  (forall p q, sampleGetURL p = sampleGetURL q -> p = q)
  /\ ("https://x.com/a?b=c" = "https://x.com/a?b=c" /\ "s1" = "s1").
Proof.
  assert (Hinj : forall p q, sampleGetURL p = sampleGetURL q -> p = q).
  { intros p q H. unfold sampleGetURL in H.
    apply app_inv_head_str, app_inv_head_str in H. exact H. }
  split; [exact Hinj|].
  apply (blockedPageUrl_is_injective sampleGetURL "https://x.com/a?b=c"
           "https://x.com/a?b=c" "s1" "s1" Hinj). reflexivity.
Defined.

Lemma listener_cancels_iff_blocked_witness :
  cancel (onBeforeRequestListener parseSimpleURL sampleExtensionScheme
            sampleBrowserScheme sampleGetURL 0 noGrant
            (mkRequest "https://www.reddit.com/r/test" "main_frame" 7))
  = true
  /\ tabUpdate (onBeforeRequestListener parseSimpleURL sampleExtensionScheme
                  sampleBrowserScheme sampleGetURL 0 noGrant
                  (mkRequest "https://www.reddit.com/r/test" "main_frame" 7))
     <> None.
Proof.
  pose proof (listener_cancels_iff_blocked parseSimpleURL
                sampleExtensionScheme sampleBrowserScheme sampleGetURL 0
                noGrant
                (mkRequest "https://www.reddit.com/r/test" "main_frame" 7))
    as H.
  cbv zeta in H. destruct H as (_ & _ & Hupdate).
  assert (Hc : cancel (onBeforeRequestListener parseSimpleURL
                         sampleExtensionScheme sampleBrowserScheme
                         sampleGetURL 0 noGrant
                         (mkRequest "https://www.reddit.com/r/test"
                                    "main_frame" 7)) = true)
    by (vm_compute; reflexivity).
  split; [exact Hc|]. apply (Hupdate Hc); discriminate.
Defined.

Lemma internal_pages_are_never_blocked_witness :
  isInternalUrl sampleExtensionScheme sampleBrowserScheme "about:config"
  = true
  /\ onBeforeRequestListener parseSimpleURL sampleExtensionScheme
       sampleBrowserScheme sampleGetURL 0 noGrant
       (mkRequest "about:config" "main_frame" 7) = mkOutcome false None
  /\ onBeforeRequestListener parseSimpleURL sampleExtensionScheme
       sampleBrowserScheme sampleGetURL 0 noGrant
       (mkRequest (blockedPageUrl sampleGetURL
                     "https://www.reddit.com/r/test" "s1") "main_frame" 7)
     = mkOutcome false None.
Proof.
  destruct (internal_pages_are_never_blocked (C := unit) parseSimpleURL
              sampleExtensionScheme sampleBrowserScheme sampleGetURL)
    as (_ & Hint & Hpage).
  assert (Habout : isInternalUrl sampleExtensionScheme sampleBrowserScheme
                                 "about:config" = true) by reflexivity.
  split; [exact Habout|]. split.
  - apply (Hint 0 None noGrant "about:config" 7 "main_frame" redditSite None
                [] Habout).
  - apply (Hpage 0 None noGrant "https://www.reddit.com/r/test" "s1" 7
                 "main_frame").
    intros p. exists ("distracted" +:+ p). split; [reflexivity|].
    unfold sampleGetURL, sampleExtensionScheme. rewrite app_cons.
    discriminate.
Defined.

Lemma updateBlockedSite_touches_one_site_witness :
  Forall (fun s : BlockedSite unit => id s <> "nobody")
         (getBlockedSites (blockedSitesKey sampleStorage))
  /\ updateBlockedSite "nobody" renameUpdate sampleStorage = sampleStorage
  /\ blockedSitesKey (updateBlockedSite "s2" renameUpdate sampleStorage)
     = Some [redditSite; mergeSite redditWildcardSite renameUpdate]
  /\ map id (getBlockedSites
               (blockedSitesKey
                  (updateBlockedSite "s2" renameUpdate sampleStorage)))
     = ["s1"; "s2"].
Proof.
  destruct (updateBlockedSite_touches_one_site (C := unit))
    as [Hunknown Hknown].
  assert (Hids : Forall (fun s : BlockedSite unit => id s <> "nobody")
                        (getBlockedSites (blockedSitesKey sampleStorage))).
  { repeat constructor; discriminate. }
  split; [exact Hids|]. split; [apply Hunknown, Hids|].
  pose proof (Hknown "s2" renameUpdate sampleStorage [redditSite]
                     redditWildcardSite [] eq_refl eq_refl) as H.
  cbv zeta in H. destruct H as (Hsites & _ & _ & Hsame).
  { repeat constructor. discriminate. }
  split; [exact Hsites|]. rewrite (Hsame eq_refl). reflexivity.
Defined.

Lemma addBlockedSite_keeps_precedence_witness :
  findMatchingBlockedSite parseSimpleURL (blockedSitesKey sampleStorage)
                          "https://www.reddit.com/r/test" = Some redditSite
  /\ findMatchingBlockedSite parseSimpleURL
       (blockedSitesKey (snd (addBlockedSite "k3x9q2ab" 5 xDraft
                                             sampleStorage)))
       "https://www.reddit.com/r/test" = Some redditSite
  /\ findMatchingBlockedSite parseSimpleURL (blockedSitesKey sampleStorage)
                             "https://x.com/home" = None
  /\ findMatchingBlockedSite parseSimpleURL
       (blockedSitesKey (snd (addBlockedSite "k3x9q2ab" 5 xDraft
                                             sampleStorage)))
       "https://x.com/home"
     = Some (fst (addBlockedSite "k3x9q2ab" 5 xDraft sampleStorage)).
Proof.
  assert (H1 : findMatchingBlockedSite parseSimpleURL
                 (blockedSitesKey sampleStorage)
                 "https://www.reddit.com/r/test" = Some redditSite)
    by (vm_compute; reflexivity).
  assert (H2 : findMatchingBlockedSite parseSimpleURL
                 (blockedSitesKey sampleStorage) "https://x.com/home" = None)
    by (vm_compute; reflexivity).
  split; [exact H1|]. split.
  - pose proof (addBlockedSite_keeps_precedence parseSimpleURL "k3x9q2ab" 5
                  xDraft sampleStorage "https://www.reddit.com/r/test") as H.
    cbv zeta in H. destruct H as (_ & _ & _ & Hkeep & _).
    apply Hkeep, H1.
  - split; [exact H2|].
    pose proof (addBlockedSite_keeps_precedence parseSimpleURL "k3x9q2ab" 5
                  xDraft sampleStorage "https://x.com/home") as H.
    cbv zeta in H. destruct H as (_ & _ & _ & _ & Hnew).
    rewrite (Hnew H2). vm_compute. reflexivity.
Defined.

Lemma refreshed_backend_follows_storage_witness :
  (forall k g, unlockedSites noGrant !! k = Some g -> expiresAt g <= 0)
  /\ site (shouldBlockUrl parseSimpleURL 0
             (refreshCache (blockedSitesKey sampleStorage) noGrant)
             "https://www.reddit.com/r/test") = Some redditSite.
Proof.
  assert (Hnone : forall k g, unlockedSites noGrant !! k = Some g ->
                              expiresAt g <= 0).
  { intros k g H. cbn [noGrant unlockedSites] in H.
    rewrite lookup_empty in H. discriminate H. }
  split; [exact Hnone|].
  pose proof (refreshed_backend_follows_storage parseSimpleURL 0
                sampleStorage noGrant "https://www.reddit.com/r/test" Hnone)
    as H.
  cbv zeta in H. destruct H as (Hsite & _). rewrite Hsite.
  vm_compute. reflexivity.
Defined.

Lemma check_blocked_answer_witness :
  isInternalUrl sampleExtensionScheme sampleBrowserScheme
                "https://www.reddit.com/r/test" = false
  /\ checkAndBlockUrl parseSimpleURL sampleExtensionScheme
       sampleBrowserScheme 0 (blockedSitesKey sampleStorage)
       "https://www.reddit.com/r/test" firstUnlocked
     = (cb_site (fst (onCheckBlocked parseSimpleURL 0
                        "https://www.reddit.com/r/test" sampleStorage
                        firstUnlocked)),
        snd (onCheckBlocked parseSimpleURL 0 "https://www.reddit.com/r/test"
                            sampleStorage firstUnlocked)).
Proof.
  assert (Hint : isInternalUrl sampleExtensionScheme sampleBrowserScheme
                               "https://www.reddit.com/r/test" = false)
    by reflexivity.
  split; [exact Hint|].
  pose proof (check_blocked_answer parseSimpleURL sampleExtensionScheme
                sampleBrowserScheme 0 "https://www.reddit.com/r/test"
                sampleStorage firstUnlocked) as H.
  cbv zeta in H. destruct H as (_ & _ & _ & Hsame). exact (Hsame Hint).
Defined.

Lemma site_info_lookup_order_witness :
  "s2" <> ""
  /\ si_site (fst (onGetSiteInfo parseSimpleURL 0 (Some "s2")
                     "https://www.reddit.com/r/test" sampleStorage
                     firstUnlocked)) = Some redditWildcardSite
  /\ si_site (fst (onGetSiteInfo parseSimpleURL 0 (Some "")
                     "https://www.reddit.com/r/test" sampleStorage
                     firstUnlocked)) = Some redditSite.
Proof.
  assert (Hne : "s2" <> "") by discriminate.
  split; [exact Hne|]. split.
  - pose proof (site_info_lookup_order parseSimpleURL 0 (Some "s2")
                  "https://www.reddit.com/r/test" sampleStorage firstUnlocked)
      as H.
    cbv zeta in H. destruct H as (Hbyid & _).
    apply (Hbyid "s2" redditWildcardSite eq_refl Hne). reflexivity.
  - pose proof (site_info_lookup_order parseSimpleURL 0 (Some "")
                  "https://www.reddit.com/r/test" sampleStorage firstUnlocked)
      as H.
    cbv zeta in H. destruct H as (_ & Hbyurl & _).
    rewrite Hbyurl by (right; left; reflexivity). vm_compute. reflexivity.
Defined.

Lemma unlock_site_then_queries_witness :
  1799999 < ul_expiresAt (fst (onUnlockSite sampleAlarmPrefix 0 "s1"
                                            (Some 30) noGrant))
  /\ fst (onCheckUnlockState 1799999 "s1"
            (snd (onUnlockSite sampleAlarmPrefix 0 "s1" (Some 30) noGrant)))
     = mkUnlockStateResponse true (Some 1800000)
  /\ cb_blocked
       (fst (onCheckBlocked parseSimpleURL 1799999
               "https://www.reddit.com/r/test" sampleStorage
               (snd (onUnlockSite sampleAlarmPrefix 0 "s1" (Some 30)
                                  noGrant)))) = false
  /\ fst (onCheckUnlockState 1800000 "s1"
            (snd (onUnlockSite sampleAlarmPrefix 0 "s1" (Some 30) noGrant)))
     = mkUnlockStateResponse false None.
Proof.
  pose proof (unlock_site_then_queries parseSimpleURL sampleAlarmPrefix 0
                1799999 "s1" (Some 30) sampleStorage noGrant
                "https://www.reddit.com/r/test" redditSite) as H.
  cbv zeta in H. destruct H as (_ & _ & Hbefore & _).
  pose proof (unlock_site_then_queries parseSimpleURL sampleAlarmPrefix 0
                1800000 "s1" (Some 30) sampleStorage noGrant
                "https://www.reddit.com/r/test" redditSite) as H'.
  cbv zeta in H'. destruct H' as (_ & _ & _ & Hafter).
  assert (Hlt : 1799999 < ul_expiresAt
                  (fst (onUnlockSite sampleAlarmPrefix 0 "s1" (Some 30)
                                     noGrant)))
    by (vm_compute; reflexivity).
  split; [exact Hlt|].
  destruct (Hbefore Hlt) as [Hstate Hblocked].
  split; [rewrite Hstate; reflexivity|].
  split; [apply Hblocked; [vm_compute; reflexivity | reflexivity]|].
  apply Hafter. vm_compute. discriminate.
Defined.

Lemma relock_redirects_each_tab_once_witness :
  NoDup (omap tab_id [redditTab])
  /\ map fst (fst (fst (onAlarmListener parseSimpleURL sampleExtensionScheme
                          sampleBrowserScheme sampleAlarmPrefix sampleGetURL
                          [redditTab] [redditTab]
                          (sampleAlarmPrefix +:+ "s1") firstUnlocked)))
     = [7]
  /\ onAlarmListener parseSimpleURL sampleExtensionScheme sampleBrowserScheme
       sampleAlarmPrefix sampleGetURL [redditTab] [redditTab] "wake-up"
       firstUnlocked = ([], None, firstUnlocked).
Proof.
  destruct (relock_redirects_each_tab_once (C := unit) parseSimpleURL
              sampleExtensionScheme sampleBrowserScheme sampleAlarmPrefix
              sampleGetURL) as [Hrelock Hother].
  assert (Hnd : NoDup (omap tab_id [redditTab])).
  { cbn. apply NoDup_singleton. }
  split; [exact Hnd|]. split.
  - pose proof (Hrelock [redditTab] "s1" firstUnlocked Hnd) as H.
    cbv zeta in H. destruct H as (_ & _ & Hids & _).
    rewrite Hids. vm_compute. reflexivity.
  - apply Hother. reflexivity.
Defined.
